(** * Receipt processor: a shallow embedding of [main.go] and its scoring rules

    The program is a two-endpoint HTTP service.  [processReceipts] binds a
    JSON body to a [Receipt], stores it under a generated id and answers with
    the id; [getPoints] looks an id up and scores the stored receipt.

    The Go standard-library and third-party functions the handlers call
    ([strings.Split], [strings.TrimSpace], [strconv.Atoi],
    [strconv.ParseFloat], [math.Mod], [math.Ceil], the regular expression
    replacement, the JSON binding of gin) are modelled from their documented
    behaviour; [float64] is IEEE 754 binary64, taken from [SpecFloat]. *)

From Stdlib Require Import ZArith String Ascii List Bool Lia SpecFloat.
From stdpp Require Import gmap strings.

Set Warnings "-register-all".

Local Open Scope string_scope.
Local Open Scope Z_scope.

(** ** Go's [int] on a 64-bit platform *)

Definition int_min : Z := - 2 ^ 63.
Definition int_max : Z := 2 ^ 63 - 1.

Definition in_int (z : Z) : bool := (int_min <=? z) && (z <=? int_max).

(** Two's-complement wrap-around of integer arithmetic. *)
Definition wrap (z : Z) : Z := (z + 2 ^ 63) mod 2 ^ 64 - 2 ^ 63.

Definition int_add (a b : Z) : Z := wrap (a + b).
Definition int_mul (a b : Z) : Z := wrap (a * b).

(** [len(s)] of a Go string: its number of bytes. *)
Definition len (s : string) : Z := Z.of_nat (String.length s).

(** The numeric value of a byte. *)
Definition code (c : ascii) : Z := Z.of_N (N_of_ascii c).

(** ** Run-time panics

    A handler either runs to its end or panics (index out of range, nil
    pointer dereference).  [Panic] carries the run-time error. *)

Inductive result (A : Type) : Type :=
| Ok (a : A)
| Panic (msg : string).
Arguments Ok {A} a.
Arguments Panic {A} msg.

Definition bind {A B : Type} (m : result A) (k : A -> result B) : result B :=
  match m with
  | Ok a => k a
  | Panic msg => Panic msg
  end.

Notation "'do' x <- m ; k" := (bind m (fun x => k))
  (at level 10, x name, m at level 100, k at level 200).

(** [xs[i]] on a slice: panics outside [0 <= i < len(xs)]. *)
Definition index {A : Type} (xs : list A) (i : nat) : result A :=
  match nth_error xs i with
  | Some x => Ok x
  | None => Panic "runtime error: index out of range"
  end.

(** ** package strings *)

Module GoStrings.

(** [strings.Split(s, sep)] for a one-byte separator, the only way the
    handlers call it: the pieces of [s] between the occurrences of [sep],
    one more piece than there are separators. *)
Fixpoint Split (s : string) (sep : ascii) : list string :=
  match s with
  | EmptyString => [EmptyString]
  | String c rest =>
      if Ascii.eqb c sep then EmptyString :: Split rest sep
      else match Split rest sep with
           | piece :: pieces => String c piece :: pieces
           | [] => [String c EmptyString]
           end
  end.

(** The number of occurrences of a byte. *)
Fixpoint Count (s : string) (sep : ascii) : nat :=
  match s with
  | EmptyString => O
  | String c rest => ((if Ascii.eqb c sep then 1 else 0) + Count rest sep)%nat
  end.

(** The UTF-8 encodings of the code points [unicode.IsSpace] accepts:
    U+0009..U+000D, U+0020, U+0085, U+00A0, U+1680, U+2000..U+200A, U+2028,
    U+2029, U+202F, U+205F, U+3000. *)
Definition space_prefix (s : string) : option string :=
  match s with
  | String c rest =>
      let b := code c in
      if ((9 <=? b) && (b <=? 13)) || (b =? 32) then Some rest
      else match rest with
      | String c1 rest1 =>
          let b1 := code c1 in
          if (b =? 194) && ((b1 =? 133) || (b1 =? 160)) then Some rest1
          else match rest1 with
          | String c2 rest2 =>
              let b2 := code c2 in
              if ((b =? 225) && (b1 =? 154) && (b2 =? 128))
                 || ((b =? 226) && (b1 =? 128)
                     && (((128 <=? b2) && (b2 <=? 138)) || (b2 =? 168)
                         || (b2 =? 169) || (b2 =? 175)))
                 || ((b =? 226) && (b1 =? 129) && (b2 =? 159))
                 || ((b =? 227) && (b1 =? 128) && (b2 =? 128))
              then Some rest2 else None
          | EmptyString => None
          end
      | EmptyString => None
      end
  | EmptyString => None
  end.

(** [strings.TrimLeftFunc(s, unicode.IsSpace)]; [fuel] bounds the number of
    leading space characters and [String.length s] always suffices. *)
Fixpoint trim_left (fuel : nat) (s : string) : string :=
  match fuel with
  | O => s
  | S fuel' =>
      match space_prefix s with
      | Some rest => trim_left fuel' rest
      | None => s
      end
  end.

Definition TrimLeft (s : string) : string := trim_left (String.length s) s.

Definition rev_string (s : string) : string :=
  string_of_list_ascii (rev (list_ascii_of_string s)).

(** A space character at the end of [s]: [s] reversed starts with the
    reversed encoding of a space. *)
Definition space_suffix_rev (r : string) : option string :=
  match r with
  | String c rest =>
      let b := code c in
      if ((9 <=? b) && (b <=? 13)) || (b =? 32) then Some rest
      else match rest with
      | String c1 rest1 =>
          let b1 := code c1 in
          if (b1 =? 194) && ((b =? 133) || (b =? 160)) then Some rest1
          else match rest1 with
          | String c2 rest2 =>
              let b2 := code c2 in
              if ((b2 =? 225) && (b1 =? 154) && (b =? 128))
                 || ((b2 =? 226) && (b1 =? 128)
                     && (((128 <=? b) && (b <=? 138)) || (b =? 168)
                         || (b =? 169) || (b =? 175)))
                 || ((b2 =? 226) && (b1 =? 129) && (b =? 159))
                 || ((b2 =? 227) && (b1 =? 128) && (b =? 128))
              then Some rest2 else None
          | EmptyString => None
          end
      | EmptyString => None
      end
  | EmptyString => None
  end.

Fixpoint trim_left_rev (fuel : nat) (r : string) : string :=
  match fuel with
  | O => r
  | S fuel' =>
      match space_suffix_rev r with
      | Some rest => trim_left_rev fuel' rest
      | None => r
      end
  end.

(** [strings.TrimRightFunc(s, unicode.IsSpace)]. *)
Definition TrimRight (s : string) : string :=
  rev_string (trim_left_rev (String.length s) (rev_string s)).

(** [strings.TrimSpace(s)]: [s] without its leading and trailing white
    space, as defined by Unicode. *)
Definition TrimSpace (s : string) : string := TrimRight (TrimLeft s).

End GoStrings.

(** ** package regexp *)

Module Regexp.

Definition is_alnum (c : ascii) : bool :=
  let b := code c in
  ((97 <=? b) && (b <=? 122)) || ((65 <=? b) && (b <=? 90))
  || ((48 <=? b) && (b <=? 57)).

(** [regexp.MustCompile(`[^a-zA-Z0-9]+`).ReplaceAllString(s, "")]: every
    maximal run of characters outside the class is replaced by the empty
    string.  A character outside the class is any byte that is not an ASCII
    letter or digit (the bytes of a multi-byte character and invalid bytes
    all lie outside), so what remains is the ASCII letters and digits of
    [s], in order. *)
Fixpoint ReplaceAllString_non_alnum (s : string) : string :=
  match s with
  | EmptyString => EmptyString
  | String c rest =>
      if is_alnum c then String c (ReplaceAllString_non_alnum rest)
      else ReplaceAllString_non_alnum rest
  end.

End Regexp.

(** ** float64 *)

Module Float64.

Definition prec : Z := 53.
Definition emax : Z := 1024.

Definition mul : spec_float -> spec_float -> spec_float := SFmul prec emax.

(** [x == y] on float64. *)
Definition eqb : spec_float -> spec_float -> bool := SFeqb.

(** The round-to-nearest-even float64 of [m * 2^e]. *)
Definition of_Z_exp (m e : Z) : spec_float := binary_normalize prec emax m e false.

(** The round-to-nearest-even float64 of [m / d], for positive [m] and [d]. *)
Definition of_quotient (neg : bool) (m d : positive) : spec_float :=
  SFdiv prec emax (S754_finite neg m 0) (S754_finite false d 0).

(** The float64 whose value is exactly [m * 2^e], for a non-negative [m]
    such that this value is a float64; its sign bit is [s]. *)
Definition exact (s : bool) (m e : Z) : spec_float :=
  match m with
  | Zpos p =>
      let '(m', e') := shl_align p e (fexp prec emax (Zpos (digits2_pos p) + e)) in
      S754_finite s m' e'
  | _ => S754_zero s
  end.

(** The constants of the program: [0], [1], [0.25], and [0.2] rounded to
    float64 (0x3FC999999999999A). *)
Definition zero : spec_float := S754_zero false.
Definition one : spec_float := S754_finite false 4503599627370496 (-52).
Definition quarter : spec_float := S754_finite false 4503599627370496 (-54).
Definition one_fifth : spec_float := S754_finite false 7205759403792794 (-55).

End Float64.

(** ** package strconv *)

Module Strconv.

Definition is_digit (c : ascii) : bool := (48 <=? code c) && (code c <=? 57).

(** [lower(c)] of strconv: [c | ('x' - 'X')]. *)
Definition lower (c : ascii) : Z := Z.lor (code c) 32.

Definition is_hex_letter (c : ascii) : bool := (97 <=? lower c) && (lower c <=? 102).

(** The value of a run of decimal digits, read after [acc]; [None] when the
    run holds another byte. *)
Fixpoint digits_value (s : string) (acc : Z) : option Z :=
  match s with
  | EmptyString => Some acc
  | String c rest =>
      if is_digit c then digits_value rest (acc * 10 + (code c - 48)) else None
  end.

(** [strconv.Atoi(s)]: an optional sign and one or more decimal digits, no
    underscore, the value within [int]; [None] stands for a non-nil error
    (syntax or range). *)
Definition Atoi (s : string) : option Z :=
  match s with
  | EmptyString => None
  | String c rest =>
      let '(neg, digits) :=
        if Ascii.eqb c "-" then (true, rest)
        else if Ascii.eqb c "+" then (false, rest)
        else (false, s) in
      match digits with
      | EmptyString => None
      | _ =>
          match digits_value digits 0 with
          | Some n => let v := if neg then - n else n in
                      if in_int v then Some v else None
          | None => None
          end
      end
  end.

(** [commonPrefixLenIgnoreCase(s, prefix)], [prefix] in lower case. *)
Fixpoint commonPrefixLenIgnoreCase (s prefix : string) : nat :=
  match s, prefix with
  | String c s', String p prefix' =>
      let b := code c in
      let b := if (65 <=? b) && (b <=? 90) then b + 32 else b in
      if b =? code p then S (commonPrefixLenIgnoreCase s' prefix') else O
  | _, _ => O
  end.

(** [special(s)]: the infinities and NaN, with the number of bytes read. *)
Definition special (s : string) : option (spec_float * nat) :=
  let inf (neg : bool) (nsign : nat) (s : string) :=
    let n := commonPrefixLenIgnoreCase s "infinity" in
    let n := if ((3 <? n) && (n <? 8))%nat then 3%nat else n in
    if ((n =? 3) || (n =? 8))%nat then Some (S754_infinity neg, (nsign + n)%nat)
    else None in
  match s with
  | String "+" rest => inf false 1%nat rest
  | String "-" rest => inf true 1%nat rest
  | String c _ =>
      if (lower c =? 105) then inf false 0%nat s
      else if (lower c =? 110) then
        if (commonPrefixLenIgnoreCase s "nan" =? 3)%nat then Some (S754_nan, 3%nat)
        else None
      else None
  | EmptyString => None
  end.

(** The state of [readFloat] while it reads the digits.  [mantissa] keeps
    every digit: ParseFloat rounds the exact value of the literal, whatever
    its length. *)
Record digits_state := {
  nd : Z;            (* digits read, leading zeros apart *)
  dp : Z;            (* position of the point *)
  mantissa : Z;
  sawdot : bool;
  sawdigits : bool;
  underscores : bool
}.

Definition digits_init : digits_state :=
  {| nd := 0; dp := 0; mantissa := 0; sawdot := false; sawdigits := false;
     underscores := false |}.

(** The digit loop of [readFloat], in base 10 or 16; it returns the state and
    what is left of the input. *)
Fixpoint read_digits (hex : bool) (s : string) (st : digits_state)
  : digits_state * string :=
  match s with
  | EmptyString => (st, s)
  | String c rest =>
      if Ascii.eqb c "_" then
        read_digits hex rest
          {| nd := nd st; dp := dp st; mantissa := mantissa st;
             sawdot := sawdot st; sawdigits := sawdigits st; underscores := true |}
      else if Ascii.eqb c "." then
        if sawdot st then (st, s)
        else read_digits hex rest
          {| nd := nd st; dp := nd st; mantissa := mantissa st;
             sawdot := true; sawdigits := sawdigits st;
             underscores := underscores st |}
      else if is_digit c then
        if Ascii.eqb c "0" && (nd st =? 0) then
          read_digits hex rest
            {| nd := nd st; dp := dp st - 1; mantissa := mantissa st;
               sawdot := sawdot st; sawdigits := true;
               underscores := underscores st |}
        else
          read_digits hex rest
            {| nd := nd st + 1; dp := dp st;
               mantissa := mantissa st * (if hex then 16 else 10) + (code c - 48);
               sawdot := sawdot st; sawdigits := true;
               underscores := underscores st |}
      else if hex && is_hex_letter c then
        read_digits hex rest
          {| nd := nd st + 1; dp := dp st;
             mantissa := mantissa st * 16 + (lower c - 97 + 10);
             sawdot := sawdot st; sawdigits := true;
             underscores := underscores st |}
      else (st, s)
  end.

(** The digits of an exponent: the value stops growing once it reaches
    10000; the result also tells whether an underscore was read, and what is
    left of the input. *)
Fixpoint read_exponent (s : string) (e : Z) (us : bool) : Z * bool * string :=
  match s with
  | EmptyString => (e, us, s)
  | String c rest =>
      if Ascii.eqb c "_" then read_exponent rest e true
      else if is_digit c then
        read_exponent rest (if e <? 10000 then e * 10 + (code c - 48) else e) us
      else (e, us, s)
  end.

(** [underscoreOK(s)]: underscores only between digits, or between a base
    prefix and a digit.  [saw] is the kind of the last byte read. *)
Inductive saw_kind := SawStart | SawDigit | SawUnderscore | SawOther.

Fixpoint underscore_loop (hex : bool) (s : string) (saw : saw_kind) : bool :=
  match s with
  | EmptyString => match saw with SawUnderscore => false | _ => true end
  | String c rest =>
      if is_digit c || (hex && is_hex_letter c) then underscore_loop hex rest SawDigit
      else if Ascii.eqb c "_" then
        match saw with
        | SawDigit => underscore_loop hex rest SawUnderscore
        | _ => false
        end
      else match saw with
           | SawUnderscore => false
           | _ => underscore_loop hex rest SawOther
           end
  end.

Definition underscoreOK (s : string) : bool :=
  let s := match s with
           | String "-" rest => rest
           | String "+" rest => rest
           | _ => s
           end in
  match s with
  | String "0" (String c rest) =>
      if (lower c =? 98) || (lower c =? 111) || (lower c =? 120)
      then underscore_loop (lower c =? 120) rest SawDigit
      else underscore_loop false s SawStart
  | _ => underscore_loop false s SawStart
  end.

(** What [readFloat] reads: the sign, the digits as an integer, the exponent
    of the base (10, or 2 for a hexadecimal literal), and the rest of the
    input. *)
Record literal := {
  lit_neg : bool;
  lit_mantissa : Z;
  lit_exp : Z;
  lit_hex : bool;
  lit_rest : string
}.

Definition readFloat (s : string) : option literal :=
  match s with
  | EmptyString => None
  | String c0 rest0 =>
      let '(neg, s1) :=
        if Ascii.eqb c0 "+" then (false, rest0)
        else if Ascii.eqb c0 "-" then (true, rest0)
        else (false, s) in
      let '(hex, s2) :=
        match s1 with
        | String "0" (String x (String c rest)) =>
            if lower x =? 120 then (true, String c rest) else (false, s1)
        | _ => (false, s1)
        end in
      let '(st, s3) := read_digits hex s2 digits_init in
      if negb (sawdigits st) then None
      else
        let dp0 := if sawdot st then dp st else nd st in
        let dp1 := if hex then dp0 * 4 else dp0 in
        let ndMant := if hex then nd st * 4 else nd st in
        let finish (dp2 : Z) (us : bool) (s4 : string) :=
          if us && negb (underscoreOK s) then None
          else Some {| lit_neg := neg; lit_mantissa := mantissa st;
                       lit_exp := if mantissa st =? 0 then 0 else dp2 - ndMant;
                       lit_hex := hex; lit_rest := s4 |} in
        match s3 with
        | String c rest3 =>
            if lower c =? (if hex then 112 else 101) then
              match rest3 with
              | EmptyString => None
              | String sg rest4 =>
                  let '(esign, s4) :=
                    if Ascii.eqb sg "+" then (1, rest4)
                    else if Ascii.eqb sg "-" then (-1, rest4)
                    else (1, rest3) in
                  match s4 with
                  | String d _ =>
                      if is_digit d then
                        let '(e, us, s5) := read_exponent s4 0 (underscores st) in
                        finish (dp1 + e * esign) us s5
                      else None
                  | EmptyString => None
                  end
              end
            else if hex then None
            else finish dp1 (underscores st) s3
        | EmptyString => if hex then None else finish dp1 (underscores st) s3
        end
  end.

(** The float64 nearest to the exact value of a literal (ties to even). *)
Definition round_literal (l : literal) : spec_float :=
  match lit_mantissa l with
  | Zpos m =>
      if lit_hex l then
        Float64.of_Z_exp (if lit_neg l then Zneg m else Zpos m) (lit_exp l)
      else
        match lit_exp l with
        | Zneg k => Float64.of_quotient (lit_neg l) m (10 ^ k)%positive
        | e => Float64.of_Z_exp ((if lit_neg l then Zneg m else Zpos m) * 10 ^ e) 0
        end
  | _ => S754_zero (lit_neg l)
  end.

(** [strconv.ParseFloat(s, 64)]: [None] stands for a non-nil error, which is
    a syntax error when [s] is not wholly a literal, and a range error when
    the nearest float64 is an infinity. *)
Definition ParseFloat (s : string) : option spec_float :=
  match special s with
  | Some (f, n) => if (n =? String.length s)%nat then Some f else None
  | None =>
      match readFloat s with
      | Some l =>
          match lit_rest l with
          | EmptyString =>
              match round_literal l with
              | S754_infinity _ => None
              | f => Some f
              end
          | _ => None
          end
      | None => None
      end
  end.

End Strconv.

(** ** package math *)

Module GoMath.

(** [math.Mod(x, y)]: the floating-point remainder of [x/y], of magnitude
    less than [y] and with the sign of [x]; the remainder is exact.
    Mod(±Inf, y) = NaN, Mod(NaN, y) = NaN, Mod(x, 0) = NaN, Mod(x, ±Inf) = x,
    Mod(x, NaN) = NaN. *)
Definition Mod (x y : spec_float) : spec_float :=
  match x, y with
  | S754_nan, _ | _, S754_nan => S754_nan
  | S754_infinity _, _ => S754_nan
  | _, S754_zero _ => S754_nan
  | _, S754_infinity _ => x
  | S754_zero _, _ => x
  | S754_finite sx mx ex, S754_finite _ my ey =>
      let e := Z.min ex ey in
      Float64.exact sx ((Zpos mx * 2 ^ (ex - e)) mod (Zpos my * 2 ^ (ey - e))) e
  end.

(** [math.Ceil(x)]: the least integer value greater than or equal to [x].
    Ceil(±0) = ±0, Ceil(±Inf) = ±Inf, Ceil(NaN) = NaN. *)
Definition Ceil (x : spec_float) : spec_float :=
  match x with
  | S754_finite s m e =>
      if 0 <=? e then x
      else
        let q := Zpos m / 2 ^ (- e) in
        let r := Zpos m mod 2 ^ (- e) in
        if s then Float64.exact true q 0
        else Float64.exact false (if r =? 0 then q else q + 1) 0
  | _ => x
  end.

End GoMath.

(** ** Conversion of a float64 to [int] *)

(** The integer part of a finite float64 (the fraction is discarded). *)
Definition truncate (f : spec_float) : option Z :=
  match f with
  | S754_zero _ => Some 0
  | S754_finite s m e =>
      let a := if 0 <=? e then Zpos m * 2 ^ e else Zpos m / 2 ^ (- e) in
      Some (if s then - a else a)
  | _ => None
  end.

(** ** The data model of [main.go] *)

(** a specific item purchased *)
Record Item := {
  ShortDescription : string;
  Price : string
}.

(** a receipt; [Items] is a slice of pointers, [None] being the nil pointer *)
Record Receipt := {
  Retailer : string;
  PurchaseDate : string;
  PurchaseTime : string;
  Total : string;
  Items : list (option Item)
}.

(** The JSON bodies of the responses: [Description], [Id] and [Points]. *)
Inductive body :=
| Description (description : string)
| Id (id : string)
| Points (points : Z).

Record response := {
  status : Z;
  payload : body
}.

Definition StatusOK : Z := 200.
Definition StatusBadRequest : Z := 400.

(** values for calculating how many points a receipt is worth *)
Definition VALUE_PER_ALPHANUMERIC_CHAR : Z := 1.
Definition VALUE_PER_TWO_ITEMS : Z := 5.
Definition ROUND_DOLLAR_AMOUNT_BONUS : Z := 50.
Definition MULTIPLE_OF_0_POINT_25_BONUS : Z := 25.
Definition ODD_DAY_BONUS : Z := 6.
Definition BETWEEN_2PM_AND_4PM_BONUS : Z := 10.
Definition ITEM_PRICE_MULTIPLIER : spec_float := Float64.one_fifth.

(** ** The scoring part of [getPoints] (lines 106 to 149)

    Each definition is one block of the handler, taking the running value of
    [points] and giving the value after the block. *)

Section Scoring.

(** The conversion [int(f)] keeps the integer part of [f].  When that is not
    an [int] value (too large, an infinity, NaN) the result is whatever the
    implementation gives: [int_of_unrepresentable] stands for it. *)
Variable int_of_unrepresentable : spec_float -> Z.

Definition int_of_float64 (f : spec_float) : Z :=
  match truncate f with
  | Some z => if in_int z then z else wrap (int_of_unrepresentable f)
  | None => wrap (int_of_unrepresentable f)
  end.

(** One point for every alphanumeric character in the retailer name. *)
Definition retailer_rule (receipt : Receipt) (points : Z) : Z :=
  int_add points
    (int_mul (len (Regexp.ReplaceAllString_non_alnum (Retailer receipt)))
       VALUE_PER_ALPHANUMERIC_CHAR).

(** 5 points for every two items on the receipt. *)
Definition item_pair_rule (receipt : Receipt) (points : Z) : Z :=
  int_add points
    (int_mul (Z.quot (Z.of_nat (length (Items receipt))) 2) VALUE_PER_TWO_ITEMS).

(** 50 points if the total is a round dollar amount with no cents. *)
Definition round_dollar_rule (receipt : Receipt) (points : Z) : Z :=
  match Strconv.ParseFloat (Total receipt) with
  | Some total =>
      if Float64.eqb (GoMath.Mod total Float64.one) Float64.zero
      then int_add points ROUND_DOLLAR_AMOUNT_BONUS else points
  | None => points
  end.

(** 25 points if the total is a multiple of 0.25. *)
Definition quarter_rule (receipt : Receipt) (points : Z) : Z :=
  match Strconv.ParseFloat (Total receipt) with
  | Some total =>
      if Float64.eqb (GoMath.Mod total Float64.quarter) Float64.zero
      then int_add points MULTIPLE_OF_0_POINT_25_BONUS else points
  | None => points
  end.

(** 6 points if the day in the purchase date is odd. *)
Definition odd_day_rule (receipt : Receipt) (points : Z) : result Z :=
  do segment <- index (GoStrings.Split (PurchaseDate receipt) "-") 2;
  match Strconv.Atoi segment with
  | Some day =>
      if Z.rem day 2 =? 1 then Ok (int_add points ODD_DAY_BONUS) else Ok points
  | None => Ok points
  end.

(** 10 points if the time of purchase is after 2:00pm and before 4:00pm. *)
Definition afternoon_rule (receipt : Receipt) (points : Z) : result Z :=
  do segment <- index (GoStrings.Split (PurchaseTime receipt) ":") 0;
  match Strconv.Atoi segment with
  | Some hour =>
      if (14 <=? hour) && (hour <? 16)
      then Ok (int_add points BETWEEN_2PM_AND_4PM_BONUS) else Ok points
  | None => Ok points
  end.

(** The body of the loop over the items, for the item [receipt.Items[i]]. *)
Definition item_rule (item : option Item) (points : Z) : result Z :=
  match item with
  | None => Panic "runtime error: invalid memory address or nil pointer dereference"
  | Some it =>
      if Z.rem (len (GoStrings.TrimSpace (ShortDescription it))) 3 =? 0 then
        match Strconv.ParseFloat (Price it) with
        | Some price =>
            Ok (int_add points
                  (int_of_float64 (GoMath.Ceil (Float64.mul price ITEM_PRICE_MULTIPLIER))))
        | None => Ok points
        end
      else Ok points
  end.

(** Add the value of each item. *)
Fixpoint items_loop (items : list (option Item)) (points : Z) : result Z :=
  match items with
  | [] => Ok points
  | item :: rest =>
      do points <- item_rule item points;
      items_loop rest points
  end.

(** The value of [points] when the handler reaches its last line. *)
Definition score (receipt : Receipt) : result Z :=
  let points := 0 in
  let points := retailer_rule receipt points in
  let points := item_pair_rule receipt points in
  let points := round_dollar_rule receipt points in
  let points := quarter_rule receipt points in
  do points <- odd_day_rule receipt points;
  do points <- afternoon_rule receipt points;
  items_loop (Items receipt) points.

(** ** The handler [getPoints]

    It reads the map of all receipts and never writes it; the result is the
    response, or the panic that ends the handler, with the map afterwards. *)
Definition getPoints (id : string) (receipts : gmap string Receipt)
  : result response * gmap string Receipt :=
  match receipts !! id with
  | None =>
      (Ok {| status := StatusBadRequest;
             payload := Description "No receipt found for that id" |},
       receipts)
  | Some receipt =>
      match score receipt with
      | Ok points => (Ok {| status := StatusOK; payload := Points points |}, receipts)
      | Panic msg => (Panic msg, receipts)
      end
  end.

End Scoring.

(** ** The JSON binding of [processReceipts]

    [context.ShouldBindJSON(&receipt)] decodes the first JSON value of the
    request body into the struct with encoding/json, then checks the
    [binding] tags with the validator. *)

Inductive json :=
| JNull
| JBool (b : bool)
| JNumber (literal : string)
| JString (s : string)
| JArray (elements : list json)
| JObject (members : list (string * json)).

Module Binding.

(** The folding of a key that encoding/json applies before it looks a field
    up: letters in upper case, and the two characters outside ASCII that fold
    to an ASCII letter, U+017F (long s, bytes C5 BF) and U+212A (Kelvin sign,
    bytes E2 84 AA).  Keys are valid UTF-8, as the decoder produces them. *)
Definition upper (c : ascii) : ascii :=
  if (97 <=? code c) && (code c <=? 122) then ascii_of_N (Z.to_N (code c - 32))
  else c.

Fixpoint foldName (key : string) : string :=
  match key with
  | EmptyString => EmptyString
  | String c rest =>
      match rest with
      | String c1 rest1 =>
          if (code c =? 197) && (code c1 =? 191) then String "S" (foldName rest1)
          else
            match rest1 with
            | String c2 rest2 =>
                if (code c =? 226) && (code c1 =? 132) && (code c2 =? 170)
                then String "K" (foldName rest2)
                else String (upper c) (foldName rest)
            | EmptyString => String (upper c) (foldName rest)
            end
      | EmptyString => String (upper c) EmptyString
      end
  end.

(** A key of a JSON object names the field tagged [name]: the exact name, or
    the same name up to case folding. *)
Definition names (key name : string) : bool :=
  String.eqb key name || String.eqb (foldName key) (foldName name).

(** A JSON value decoded into a [string] field holding [old]: a string is
    stored, null leaves the field as it is, anything else is an
    UnmarshalTypeError ([None]). *)
Definition decode_string (v : json) (old : string) : option string :=
  match v with
  | JString s => Some s
  | JNull => Some old
  | _ => None
  end.

(** The members of a JSON object decoded, in order, into an [Item]. *)
Fixpoint decode_item_members (members : list (string * json)) (it : Item)
  : option Item :=
  match members with
  | [] => Some it
  | (key, v) :: rest =>
      if names key "shortDescription" then
        match decode_string v (ShortDescription it) with
        | Some s =>
            decode_item_members rest {| ShortDescription := s; Price := Price it |}
        | None => None
        end
      else if names key "price" then
        match decode_string v (Price it) with
        | Some s =>
            decode_item_members rest
              {| ShortDescription := ShortDescription it; Price := s |}
        | None => None
        end
      else decode_item_members rest it
  end.

(** A JSON value decoded into a [*Item] holding [old]: null sets the pointer
    to nil; an object is decoded into the Item pointed at, a new zero Item
    when the pointer is nil; anything else is an UnmarshalTypeError. *)
Definition decode_item_ptr (v : json) (old : option Item) : option (option Item) :=
  match v with
  | JNull => Some None
  | JObject members =>
      let target :=
        match old with
        | Some it => it
        | None => {| ShortDescription := ""; Price := "" |}
        end in
      option_map Some (decode_item_members members target)
  | _ => None
  end.

(** The elements of a JSON array decoded into the slots of the slice, slot
    [i] holding what the backing array has at [i] (nil beyond it). *)
Fixpoint decode_elements (elements : list json) (backing : list (option Item))
  : option (list (option Item)) :=
  match elements with
  | [] => Some []
  | v :: rest =>
      match decode_item_ptr v (hd None backing) with
      | Some slot => option_map (cons slot) (decode_elements rest (tl backing))
      | None => None
      end
  end.

(** A slice [[]*Item]: nil, or a backing array of which the first
    [slice_len] slots are the elements. *)
Inductive items_slice :=
| NilSlice
| Slice (backing : list (option Item)) (slice_len : nat).

Definition backing_of (sl : items_slice) : list (option Item) :=
  match sl with
  | NilSlice => []
  | Slice backing _ => backing
  end.

Definition elements_of (sl : items_slice) : list (option Item) :=
  match sl with
  | NilSlice => []
  | Slice backing n => firstn n backing
  end.

(** A JSON value decoded into the [Items] field: null makes the slice nil;
    an array is decoded slot by slot into the slice, which is cut to the
    length of the array (an empty array gives a new empty slice); anything
    else is an UnmarshalTypeError. *)
Definition decode_items (v : json) (old : items_slice) : option items_slice :=
  match v with
  | JNull => Some NilSlice
  | JArray [] => Some (Slice [] 0)
  | JArray elements =>
      match decode_elements elements (backing_of old) with
      | Some slots =>
          Some (Slice (slots ++ skipn (length elements) (backing_of old))
                      (length elements))
      | None => None
      end
  | _ => None
  end.

(** The variable [receipt] while the body is decoded into it. *)
Record receipt_var := {
  vRetailer : string;
  vPurchaseDate : string;
  vPurchaseTime : string;
  vTotal : string;
  vItems : items_slice
}.

(** [var receipt Receipt]: the zero value. *)
Definition zero_receipt : receipt_var :=
  {| vRetailer := ""; vPurchaseDate := ""; vPurchaseTime := ""; vTotal := "";
     vItems := NilSlice |}.

(** The members of the JSON object decoded, in order, into [receipt]; a key
    that names no field is skipped. *)
Fixpoint decode_members (members : list (string * json)) (r : receipt_var)
  : option receipt_var :=
  match members with
  | [] => Some r
  | (key, v) :: rest =>
      if names key "retailer" then
        match decode_string v (vRetailer r) with
        | Some s =>
            decode_members rest
              {| vRetailer := s; vPurchaseDate := vPurchaseDate r;
                 vPurchaseTime := vPurchaseTime r; vTotal := vTotal r;
                 vItems := vItems r |}
        | None => None
        end
      else if names key "purchaseDate" then
        match decode_string v (vPurchaseDate r) with
        | Some s =>
            decode_members rest
              {| vRetailer := vRetailer r; vPurchaseDate := s;
                 vPurchaseTime := vPurchaseTime r; vTotal := vTotal r;
                 vItems := vItems r |}
        | None => None
        end
      else if names key "purchaseTime" then
        match decode_string v (vPurchaseTime r) with
        | Some s =>
            decode_members rest
              {| vRetailer := vRetailer r; vPurchaseDate := vPurchaseDate r;
                 vPurchaseTime := s; vTotal := vTotal r; vItems := vItems r |}
        | None => None
        end
      else if names key "total" then
        match decode_string v (vTotal r) with
        | Some s =>
            decode_members rest
              {| vRetailer := vRetailer r; vPurchaseDate := vPurchaseDate r;
                 vPurchaseTime := vPurchaseTime r; vTotal := s;
                 vItems := vItems r |}
        | None => None
        end
      else if names key "items" then
        match decode_items v (vItems r) with
        | Some sl =>
            decode_members rest
              {| vRetailer := vRetailer r; vPurchaseDate := vPurchaseDate r;
                 vPurchaseTime := vPurchaseTime r; vTotal := vTotal r;
                 vItems := sl |}
        | None => None
        end
      else decode_members rest r
  end.

(** [json.Decoder.Decode] into the struct: an object is decoded member by
    member, null leaves the struct as it is, any other value is an
    UnmarshalTypeError. *)
Definition decode (v : json) : option receipt_var :=
  match v with
  | JObject members => decode_members members zero_receipt
  | JNull => Some zero_receipt
  | _ => None
  end.

(** The tag [binding:"required"]: a string field is not empty, a slice field
    is not nil.  The tag of [Items] does not say [dive], so the validator
    does not look at the elements of the slice. *)
Definition required_string (s : string) : bool := negb (String.eqb s "").

Definition required_slice (sl : items_slice) : bool :=
  match sl with
  | NilSlice => false
  | Slice _ _ => true
  end.

Definition validate (r : receipt_var) : bool :=
  required_string (vRetailer r) && required_string (vPurchaseDate r)
  && required_string (vPurchaseTime r) && required_string (vTotal r)
  && required_slice (vItems r).

(** [context.ShouldBindJSON(&receipt)]: the receipt when [err == nil], [None]
    when [err != nil].  The body is [None] when it does not start with a JSON
    value. *)
Definition ShouldBindJSON (request_body : option json) : option Receipt :=
  match request_body with
  | None => None
  | Some v =>
      match decode v with
      | Some r =>
          if validate r then
            Some {| Retailer := vRetailer r; PurchaseDate := vPurchaseDate r;
                    PurchaseTime := vPurchaseTime r; Total := vTotal r;
                    Items := elements_of (vItems r) |}
          else None
      | None => None
      end
  end.

End Binding.

(** ** The handler [processReceipts]

    [id] is what [xid.New().String()] gives in this call. *)
Definition processReceipts (request_body : option json) (id : string)
  (receipts : gmap string Receipt) : result response * gmap string Receipt :=
  match Binding.ShouldBindJSON request_body with
  | None =>
      (Ok {| status := StatusBadRequest;
             payload := Description "The receipt is invalid" |},
       receipts)
  | Some receipt =>
      (Ok {| status := StatusOK; payload := Id id |}, <[id := receipt]> receipts)
  end.

(** ** The router of [main]

    [router.POST(`/receipts/process`, processReceipts)] and
    [router.GET(`/receipts/:id/points`, getPoints)].  A POST carries the body
    and, with it, the id that [xid] generates while it is served. *)
Inductive request :=
| POST_receipts_process (request_body : option json) (xid : string)
| GET_receipts_points (id : string).

Section Router.

Variable int_of_unrepresentable : spec_float -> Z.

Definition serve (req : request) (receipts : gmap string Receipt)
  : result response * gmap string Receipt :=
  match req with
  | POST_receipts_process request_body xid => processReceipts request_body xid receipts
  | GET_receipts_points id => getPoints int_of_unrepresentable id receipts
  end.

(** The map of receipts after a sequence of requests, served one after the
    other.  [gin.Default()] recovers the panic of a handler, so the server
    goes on with the next request. *)
Fixpoint serve_all (reqs : list request) (receipts : gmap string Receipt)
  : gmap string Receipt :=
  match reqs with
  | [] => receipts
  | req :: rest => serve_all rest (snd (serve req receipts))
  end.

End Router.

Definition StatusInternalServerError : Z := 500.

(** The status the client receives: that of the response, or 500 from the
    recovery middleware of [gin.Default()] when the handler panicked. *)
Definition status_sent (answer : result response) : Z :=
  match answer with
  | Ok resp => status resp
  | Panic _ => StatusInternalServerError
  end.

(** The ids a sequence of requests generates. *)
Definition generated (reqs : list request) : list string :=
  flat_map (fun req => match req with
                       | POST_receipts_process _ xid => [xid]
                       | GET_receipts_points _ => []
                       end) reqs.

(** ** Inputs and auxiliary notions of the statements below *)

(** On amd64 the conversion instruction answers every float64 that is not an
    [int] value with the "integer indefinite" value, the least [int]. *)
Definition int_indefinite (f : spec_float) : Z := int_min.

(** The text of [s] before its first [sep] (all of [s] when there is none). *)
Fixpoint before (s : string) (sep : ascii) : string :=
  match s with
  | EmptyString => EmptyString
  | String c rest => if Ascii.eqb c sep then EmptyString else String c (before rest sep)
  end.

(** The piece of a date after its second [-]. *)
Definition day_segment (date : string) : string :=
  nth 2 (GoStrings.Split date "-") "".

(** The form [HH:MM] the data model gives for a purchase time: two digits, a
    colon, two digits. *)
Definition HH_MM (time : string) : bool :=
  match time with
  | String h1 (String h2 (String ":" (String m1 (String m2 EmptyString)))) =>
      Strconv.is_digit h1 && Strconv.is_digit h2
      && Strconv.is_digit m1 && Strconv.is_digit m2
  | _ => false
  end.

(** The description-length test of the item loop. *)
Definition scored (it : Item) : bool :=
  Z.rem (len (GoStrings.TrimSpace (ShortDescription it))) 3 =? 0.

(** A float64 that is zero or positive (NaN is neither). *)
Definition nonnegative (f : spec_float) : bool := SFleb Float64.zero f.

(** [f] has an integer part, and it is an [int] value. *)
Definition fits_int (f : spec_float) : bool :=
  match truncate f with
  | Some z => in_int z
  | None => false
  end.

(** The receipt of scenario A. *)
Definition scenario_A : Receipt :=
  {| Retailer := "Target";
     PurchaseDate := "2022-01-01";
     PurchaseTime := "13:01";
     Total := "35.35";
     Items :=
       [ Some {| ShortDescription := "Mountain Dew 12PK"; Price := "6.49" |};
         Some {| ShortDescription := "Emils Cheese Pizza"; Price := "12.25" |};
         Some {| ShortDescription := "Knorr Creamy Chicken"; Price := "1.26" |};
         Some {| ShortDescription := "Doritos Nacho Cheese"; Price := "3.35" |};
         Some {| ShortDescription := "   Klarbrunn 12-PK 12 FL OZ  "; Price := "12.00" |} ]
  |}.

(** A receipt with the given date, time, total and items. *)
Definition receipt_with (date time total : string) (items : list (option Item))
  : Receipt :=
  {| Retailer := "T"; PurchaseDate := date; PurchaseTime := time;
     Total := total; Items := items |}.

(** The JSON object of a receipt with the given date and items. *)
Definition payload_with (date : string) (items : list json) : json :=
  JObject [ ("retailer", JString "T"); ("purchaseDate", JString date);
            ("purchaseTime", JString "13:01"); ("total", JString "1.10");
            ("items", JArray items) ].

(** The least integer not below the value of a finite float64. *)
Definition ceiling_of (f : spec_float) : option Z :=
  match f with
  | S754_zero _ => Some 0
  | S754_finite s m e =>
      let n := if s then Zneg m else Zpos m in
      Some (if 0 <=? e then n * 2 ^ e else - ((- n) / 2 ^ (- e)))
  | _ => None
  end.

(** What the item loop adds for one item: the loop body run from 0. *)
Definition item_points (conv : spec_float -> Z) (item : option Item) : Z :=
  match item_rule conv item 0 with
  | Ok z => z
  | Panic _ => 0
  end.

(** The most a receipt can score if nothing wraps around: every bonus of the
    four conditional rules (50 + 25 + 6 + 10), and the points of the retailer
    name, of the pairs and of the items. *)
Definition points_bound (conv : spec_float -> Z) (r : Receipt) : Z :=
  len (Regexp.ReplaceAllString_non_alnum (Retailer r))
  + 5 * (Z.of_nat (length (Items r)) / 2)
  + 91
  + fold_right (fun item acc => item_points conv item + acc) 0 (Items r).

(** The price of an item the loop scores is zero or positive, and the
    ceiling of its product with 0.2 is an [int] value. *)
Definition scored_price_ok (it : Item) : Prop :=
  forall price,
    scored it = true -> Strconv.ParseFloat (Price it) = Some price ->
    nonnegative price = true
    /\ fits_int (GoMath.Ceil (Float64.mul price ITEM_PRICE_MULTIPLIER)) = true.

(** The five fields of a receipt, all tagged [binding:"required"]. *)
Inductive field := FRetailer | FPurchaseDate | FPurchaseTime | FTotal | FItems.

Definition field_name (f : field) : string :=
  match f with
  | FRetailer => "retailer"
  | FPurchaseDate => "purchaseDate"
  | FPurchaseTime => "purchaseTime"
  | FTotal => "total"
  | FItems => "items"
  end.

(** The field still has its zero value. *)
Definition field_unset (f : field) (r : Binding.receipt_var) : bool :=
  match f with
  | FRetailer => String.eqb (Binding.vRetailer r) ""
  | FPurchaseDate => String.eqb (Binding.vPurchaseDate r) ""
  | FPurchaseTime => String.eqb (Binding.vPurchaseTime r) ""
  | FTotal => String.eqb (Binding.vTotal r) ""
  | FItems => negb (Binding.required_slice (Binding.vItems r))
  end.

(** A JSON value of the wrong shape for a field: not a string for a string
    field, not an array for [items] (null is the absence of a value). *)
Definition wrong_shape (f : field) (v : json) : bool :=
  match f, v with
  | _, JNull => false
  | FItems, JArray _ => false
  | FItems, _ => true
  | _, JString _ => false
  | _, _ => true
  end.

(** What each rule adds on its own: the rule run from 0 points. *)
Definition retailer_points (r : Receipt) : Z :=
  len (Regexp.ReplaceAllString_non_alnum (Retailer r)).

Definition pair_points (r : Receipt) : Z :=
  Z.quot (Z.of_nat (length (Items r))) 2 * 5.

Definition day_points (r : Receipt) : Z :=
  match odd_day_rule r 0 with
  | Ok z => z
  | Panic _ => 0
  end.

Definition hour_points (r : Receipt) : Z :=
  match afternoon_rule r 0 with
  | Ok z => z
  | Panic _ => 0
  end.

Definition items_points (conv : spec_float -> Z) (items : list (option Item)) : Z :=
  fold_right (fun item acc => item_points conv item + acc) 0 items.

(** The points of all the rules, added as integers without bound. *)
Definition rules_sum (conv : spec_float -> Z) (r : Receipt) : Z :=
  retailer_points r + pair_points r
  + round_dollar_rule r 0 + quarter_rule r 0
  + day_points r + hour_points r
  + items_points conv (Items r).

(** The four string fields of the receipt are not empty. *)
Definition required_fields (r : Receipt) : Prop :=
  Retailer r <> "" /\ PurchaseDate r <> "" /\ PurchaseTime r <> ""
  /\ Total r <> "".


(** The JSON text a client writes for a receipt, with the keys of the struct
    tags; a nil item is written null. *)
Definition item_json (item : option Item) : json :=
  match item with
  | Some it =>
      JObject [ ("shortDescription", JString (ShortDescription it));
                ("price", JString (Price it)) ]
  | None => JNull
  end.

Definition receipt_json (r : Receipt) : json :=
  JObject [ ("retailer", JString (Retailer r));
            ("purchaseDate", JString (PurchaseDate r));
            ("purchaseTime", JString (PurchaseTime r));
            ("total", JString (Total r));
            ("items", JArray (map item_json (Items r))) ].

(** A run of [n] spaces. *)
Definition spaces (n : nat) : string := string_of_list_ascii (repeat " "%char n).

(** A printable ASCII character other than the space: a byte from 33 to 126. *)
Definition plain (c : ascii) : bool := (33 <=? code c) && (code c <=? 126).

(** A text made of decimal digits only. *)
Fixpoint all_digits (s : string) : bool :=
  match s with
  | EmptyString => true
  | String c rest => Strconv.is_digit c && all_digits rest
  end.

(** Two items and a receipt that holds two items, for the examples. *)
Definition two_items_receipt (first second : option Item) : Receipt :=
  receipt_with "2022-01-01" "14:30" "9.00" [first; second].

Definition pizza : option Item :=
  Some {| ShortDescription := "Emils Cheese Pizza"; Price := "12.25" |}.

Definition soda : option Item :=
  Some {| ShortDescription := "Mountain Dew 12PK"; Price := "6.49" |}.

(** * Properties *)

(** ** Integers *)

Ltac int_consts :=
  unfold int_min, int_max in *;
  change (2 ^ 63) with 9223372036854775808 in *;
  change (2 ^ 64) with 18446744073709551616 in *.

Lemma wrap_in_int (z : Z) : int_min <= wrap z <= int_max.
Proof.
  unfold wrap. int_consts.
  pose proof (Z.mod_pos_bound (z + 9223372036854775808) 18446744073709551616
                ltac:(lia)). lia.
Qed.

Lemma wrap_small (z : Z) : int_min <= z <= int_max -> wrap z = z.
Proof.
  unfold wrap. int_consts. intros Hz.
  rewrite Z.mod_small by lia. lia.
Qed.

Lemma int_add_exact (a b : Z) :
  int_min <= a + b <= int_max -> int_add a b = a + b.
Proof. apply wrap_small. Qed.

Lemma in_int_spec (z : Z) : in_int z = true <-> int_min <= z <= int_max.
Proof. unfold in_int. rewrite andb_true_iff, !Z.leb_le. tauto. Qed.

(** ** strings.Split *)

Section SplitFacts.

Import GoStrings.

Lemma Split_cons (s : string) (sep : ascii) :
  exists piece pieces, Split s sep = piece :: pieces.
Proof.
  induction s as [|c rest IH]; simpl; [eauto|].
  destruct (Ascii.eqb c sep); [eauto|].
  destruct IH as (piece & pieces & ->). eauto.
Qed.

Lemma Split_length (s : string) (sep : ascii) :
  length (Split s sep) = S (Count s sep).
Proof.
  induction s as [|c rest IH]; simpl; [reflexivity|].
  destruct (Ascii.eqb c sep); simpl; [now rewrite IH|].
  destruct (Split_cons rest sep) as (piece & pieces & E).
  rewrite E in *. simpl in *. exact IH.
Qed.

Lemma Split_head (s : string) (sep : ascii) :
  hd "" (Split s sep) = before s sep.
Proof.
  induction s as [|c rest IH]; simpl; [reflexivity|].
  destruct (Ascii.eqb c sep); simpl; [reflexivity|].
  destruct (Split_cons rest sep) as (piece & pieces & E).
  rewrite E in *. simpl in *. now rewrite IH.
Qed.

(** No piece holds the separator. *)
Lemma Split_pieces (s : string) (sep : ascii) (piece : string) :
  In piece (Split s sep) -> Count piece sep = O.
Proof.
  revert piece. induction s as [|c rest IH]; simpl; intros piece Hin.
  - destruct Hin as [<-|[]]. reflexivity.
  - destruct (Ascii.eqb c sep) eqn:Ec.
    + destruct Hin as [<-|Hin]; [reflexivity|auto].
    + destruct (Split_cons rest sep) as (p0 & ps & E). rewrite E in *.
      destruct Hin as [<-|Hin].
      * simpl. rewrite Ec. apply IH. now left.
      * apply IH. now right.
Qed.

Lemma index_Split_0 (s : string) (sep : ascii) :
  index (Split s sep) 0 = Ok (before s sep).
Proof.
  rewrite <- Split_head. destruct (Split_cons s sep) as (p0 & ps & ->).
  reflexivity.
Qed.

Lemma index_Split_2 (date : string) :
  (2 <= Count date "-")%nat ->
  index (Split date "-") 2 = Ok (day_segment date)
  /\ In (day_segment date) (Split date "-").
Proof.
  intros Hc. unfold day_segment, index.
  pose proof (Split_length date "-") as Hl.
  destruct (Split date "-") as [|p0 [|p1 [|p2 ps]]]; simpl in *; try lia.
  split; [reflexivity|]. right. right. now left.
Qed.

Lemma index_Split_short (date : string) :
  (Count date "-" < 2)%nat ->
  index (Split date "-") 2 = Panic "runtime error: index out of range".
Proof.
  intros Hc. unfold index.
  pose proof (Split_length date "-") as Hl.
  destruct (Split date "-") as [|p0 [|p1 [|p2 ps]]]; simpl in *; try lia;
    reflexivity.
Qed.

End SplitFacts.

(** ** strconv.Atoi *)

Section AtoiFacts.

Import Strconv.

Lemma digits_value_nonneg (s : string) (acc n : Z) :
  0 <= acc -> digits_value s acc = Some n -> 0 <= n.
Proof.
  revert acc. induction s as [|c rest IH]; simpl; intros acc Hacc H.
  - injection H as <-. exact Hacc.
  - unfold is_digit in H.
    destruct ((48 <=? code c) && (code c <=? 57)) eqn:Ed; [|discriminate].
    apply andb_true_iff in Ed as [H1 H2].
    apply Z.leb_le in H1. eapply IH; [|exact H]. lia.
Qed.

Lemma Atoi_in_int (s : string) (v : Z) :
  Atoi s = Some v -> int_min <= v <= int_max.
Proof.
  unfold Atoi. intros H. apply in_int_spec.
  repeat match type of H with
  | context [match ?x with _ => _ end] => destruct x eqn:?; try discriminate
  end; inversion H; subst; assumption.
Qed.

(** A negative value needs a minus sign in front. *)
Lemma Atoi_negative (s : string) (v : Z) :
  Atoi s = Some v -> v < 0 -> exists rest, s = String "-" rest.
Proof.
  unfold Atoi. intros H Hv.
  destruct s as [|c rest]; [discriminate|].
  destruct (Ascii.eqb c "-") eqn:Ec.
  - apply Ascii.eqb_eq in Ec. subst. eauto.
  - exfalso.
    assert (forall digits,
              match digits with
              | "" => None
              | _ => match digits_value digits 0 with
                     | Some n => if in_int n then Some n else None
                     | None => None
                     end
              end = Some v -> False) as Hd.
    { intros digits Hd. destruct digits; [discriminate|].
      destruct (digits_value _ 0) eqn:E; [|discriminate].
      apply digits_value_nonneg in E; [|lia].
      destruct (in_int z); inversion Hd; lia. }
    destruct (Ascii.eqb c "+"); [exact (Hd rest H)|exact (Hd (String c rest) H)].
Qed.

Lemma Atoi_piece_nonneg (s piece : string) (v : Z) :
  In piece (GoStrings.Split s "-") -> Atoi piece = Some v -> 0 <= v.
Proof.
  intros Hin Hv. destruct (Z.lt_ge_cases v 0) as [Hneg|]; [|assumption].
  destruct (Atoi_negative _ _ Hv Hneg) as (rest & ->).
  apply Split_pieces in Hin. discriminate Hin.
Qed.

End AtoiFacts.

(** ** The date and time rules *)

Section DateTimeFacts.

Import GoStrings Strconv.

Variable int_of_unrepresentable : spec_float -> Z.

Lemma rem2_odd (day : Z) : 0 <= day -> (Z.rem day 2 =? 1) = Z.odd day.
Proof.
  intros Hd. rewrite Z.rem_mod_nonneg by lia. rewrite Zmod_odd.
  destruct (Z.odd day); reflexivity.
Qed.

(** The odd-day block, once the date has its third piece. *)
Lemma odd_day_rule_eq (r : Receipt) (p : Z) :
  (2 <= Count (PurchaseDate r) "-")%nat ->
  odd_day_rule r p =
  Ok (match Atoi (day_segment (PurchaseDate r)) with
      | Some day => if Z.odd day then int_add p ODD_DAY_BONUS else p
      | None => p
      end).
Proof.
  intros Hc. unfold odd_day_rule.
  destruct (index_Split_2 _ Hc) as [-> Hin]. simpl.
  destruct (Atoi _) as [day|] eqn:Eday; [|reflexivity].
  rewrite (rem2_odd day (Atoi_piece_nonneg _ _ _ Hin Eday)).
  destruct (Z.odd day); reflexivity.
Qed.

(** The afternoon block never panics: [Split] gives at least one piece. *)
Lemma afternoon_rule_eq (r : Receipt) (p : Z) :
  afternoon_rule r p =
  Ok (match Atoi (before (PurchaseTime r) ":") with
      | Some hour =>
          if (14 <=? hour) && (hour <? 16)
          then int_add p BETWEEN_2PM_AND_4PM_BONUS else p
      | None => p
      end).
Proof.
  unfold afternoon_rule. rewrite index_Split_0. simpl.
  destruct (Atoi _) as [hour|]; [|reflexivity].
  destruct ((14 <=? hour) && (hour <? 16)); reflexivity.
Qed.

Lemma item_rule_Some (it : Item) (p : Z) :
  exists q, item_rule int_of_unrepresentable (Some it) p = Ok q.
Proof.
  unfold item_rule. destruct (Z.rem _ 3 =? 0); [|eauto].
  destruct (ParseFloat _); eauto.
Qed.

(** The loop over the items ends without a panic when no item is nil. *)
Lemma items_loop_total (items : list (option Item)) (p : Z) :
  Forall is_Some items ->
  exists q, items_loop int_of_unrepresentable items p = Ok q.
Proof.
  intros Hall. revert p. induction Hall as [|item rest [it ->] _ IH]; intros p.
  - simpl. eauto.
  - cbn [items_loop]. destruct (item_rule_Some it p) as (q & ->).
    cbn [bind]. apply IH.
Qed.

Lemma score_total (r : Receipt) :
  (2 <= Count (PurchaseDate r) "-")%nat ->
  Forall is_Some (Items r) ->
  exists points, score int_of_unrepresentable r = Ok points.
Proof.
  intros Hc Hitems. unfold score.
  rewrite (odd_day_rule_eq r _ Hc). simpl.
  rewrite afternoon_rule_eq. simpl.
  apply items_loop_total, Hitems.
Qed.

(** C1 (amended).  For a stored receipt whose purchase date has at least two
    [-] separators, the odd-day rule raises no error: it adds exactly 6
    points ([p + 6] as long as [int] does not wrap around) when the piece
    after the second separator (up to a third one, if any) parses as an odd
    integer, and adds nothing when that piece is even or does not parse; if
    moreover no item is null, get-points answers with status 200 and a
    score. *)
Theorem odd_day_rule_third_piece (r : Receipt) (p : Z)
  (Hsep : (2 <= Count (PurchaseDate r) "-")%nat) :
  (forall day, Atoi (day_segment (PurchaseDate r)) = Some day ->
               Z.odd day = true ->
               odd_day_rule r p = Ok (int_add p 6)
               /\ (int_min <= p <= int_max - 6 -> int_add p 6 = p + 6))
  /\ (forall day, Atoi (day_segment (PurchaseDate r)) = Some day ->
                  Z.odd day = false -> odd_day_rule r p = Ok p)
  /\ (Atoi (day_segment (PurchaseDate r)) = None -> odd_day_rule r p = Ok p)
  /\ (forall id (receipts : gmap string Receipt),
        receipts !! id = Some r -> Forall is_Some (Items r) ->
        exists points,
          getPoints int_of_unrepresentable id receipts
          = (Ok {| status := 200; payload := Points points |}, receipts)).
Proof.
  rewrite (odd_day_rule_eq r p Hsep). repeat split.
  - match goal with
    | Hday : Atoi _ = Some ?d, Hodd : Z.odd ?d = true |- _ => rewrite Hday, Hodd
    end. reflexivity.
  - intros Hp. apply int_add_exact. lia.
  - intros day -> ->. reflexivity.
  - intros ->. reflexivity.
  - intros id receipts Hid Hitems. unfold getPoints. rewrite Hid.
    destruct (score_total r Hsep Hitems) as (points & ->). eauto.
Qed.

(** C6 (amended).  The afternoon rule raises no error for any purchase time.
    It looks only at the text before the first colon (the whole text when
    there is no colon): when that text parses as an integer [hour] with
    [14 <= hour < 16] the rule adds exactly 10 points ([p + 10] as long as
    [int] does not wrap around), whatever follows the colon; when it parses
    outside that interval or does not parse, the rule adds nothing. *)
Theorem afternoon_rule_hour (r : Receipt) (p : Z) :
  (forall hour, Atoi (before (PurchaseTime r) ":") = Some hour ->
                14 <= hour < 16 ->
                afternoon_rule r p = Ok (int_add p 10)
                /\ (int_min <= p <= int_max - 10 -> int_add p 10 = p + 10))
  /\ (forall hour, Atoi (before (PurchaseTime r) ":") = Some hour ->
                   ~ 14 <= hour < 16 -> afternoon_rule r p = Ok p)
  /\ (Atoi (before (PurchaseTime r) ":") = None -> afternoon_rule r p = Ok p).
Proof.
  rewrite afternoon_rule_eq. repeat split.
  - match goal with Hhour : Atoi _ = Some _ |- _ => rewrite Hhour end.
    replace ((14 <=? hour) && (hour <? 16)) with true
      by (symmetry; apply andb_true_iff; split; [apply Z.leb_le|apply Z.ltb_lt]; lia).
    reflexivity.
  - intros Hp. apply int_add_exact. lia.
  - intros hour -> Hh.
    destruct ((14 <=? hour) && (hour <? 16)) eqn:E; [|reflexivity].
    apply andb_true_iff in E as [E1 E2].
    apply Z.leb_le in E1. apply Z.ltb_lt in E2. lia.
  - intros ->. reflexivity.
Qed.

End DateTimeFacts.

(** ** float64: remainders and ceilings *)

Section FloatFacts.

Import GoMath.

Lemma exact_zero (s : bool) (e : Z) : Float64.exact s 0 e = S754_zero s.
Proof. reflexivity. Qed.

(** An exact float64 compares equal to 0 only when its value is 0. *)
Lemma exact_eqb_zero (s : bool) (m e : Z) :
  0 <= m -> Float64.eqb (Float64.exact s m e) Float64.zero = true -> m = 0.
Proof.
  intros Hm. destruct m as [|q|q]; [reflexivity| |lia].
  unfold Float64.exact. destruct (shl_align _ _ _) as [m' e'].
  destruct s; discriminate.
Qed.

Lemma mod_zero_divide (x y : Z) : 0 < y -> x mod y = 0 <-> (y | x).
Proof. intros Hy. apply Z.mod_divide. lia. Qed.

(** A multiple of 1 is a multiple of 0.25, on integers scaled by the least
    of the two exponents. *)
Lemma remainder_one_quarter (m : positive) (e : Z) :
  (Zpos m * 2 ^ (e - Z.min e (-52)))
    mod (4503599627370496 * 2 ^ (-52 - Z.min e (-52))) = 0 ->
  (Zpos m * 2 ^ (e - Z.min e (-54)))
    mod (4503599627370496 * 2 ^ (-54 - Z.min e (-54))) = 0.
Proof.
  change 4503599627370496 with (2 ^ 52).
  assert (Hpow : forall a b, 0 <= a -> 0 <= b -> 2 ^ (a + b) = 2 ^ a * 2 ^ b)
    by (intros; apply Z.pow_add_r; assumption).
  assert (Hpos : forall a, 0 <= a -> 0 < 2 ^ a)
    by (intros; apply Z.pow_pos_nonneg; lia).
  intros H.
  apply mod_zero_divide in H;
    [|apply Z.mul_pos_pos; apply Hpos; lia].
  apply mod_zero_divide; [apply Z.mul_pos_pos; apply Hpos; lia|].
  destruct (Z.le_gt_cases (-52) e) as [Hge|Hlt].
  - (* e >= -52: both remainders are taken modulo 2^52 *)
    rewrite Z.min_r in * by lia.
    replace (-52 - -52) with 0 in H by lia.
    replace (-54 - -54) with 0 by lia.
    replace (e - -54) with ((e - -52) + 2) by lia.
    rewrite Hpow by lia. rewrite Z.mul_assoc.
    apply Z.divide_mul_l. exact H.
  - destruct (Z.le_gt_cases (-54) e) as [Hge'|Hlt'].
    + (* -54 <= e < -52 *)
      rewrite Z.min_l in H by lia. rewrite Z.min_r by lia.
      replace (e - e) with 0 in H by lia.
      replace (-54 - -54) with 0 by lia.
      change (2 ^ 0) with 1 in *. rewrite Z.mul_1_r in *.
      apply Z.divide_mul_l.
      apply Z.divide_trans with (2 := H).
      apply Z.divide_factor_l.
    + (* e < -54: the value has fractional bits below 2^-54 *)
      rewrite Z.min_l in * by lia.
      replace (e - e) with 0 in * by lia.
      apply Z.divide_trans with (2 := H).
      replace (-52 - e) with ((-54 - e) + 2) by lia.
      rewrite Hpow by lia. rewrite Z.mul_assoc.
      apply Z.divide_factor_l.
Qed.

(** [math.Mod(x, 1) == 0] implies [math.Mod(x, 0.25) == 0]. *)
Lemma Mod_one_quarter (x : spec_float) :
  Float64.eqb (Mod x Float64.one) Float64.zero = true ->
  Float64.eqb (Mod x Float64.quarter) Float64.zero = true.
Proof.
  destruct x as [s|s| |s m e]; try (intros H; exact H).
  unfold Mod, Float64.one, Float64.quarter. intros H.
  apply exact_eqb_zero in H.
  - rewrite (remainder_one_quarter m e H). rewrite exact_zero.
    destruct s; reflexivity.
  - apply Z.mod_pos_bound. apply Z.mul_pos_pos; [lia|].
    apply Z.pow_pos_nonneg; lia.
Qed.

Lemma iter_xO (m d : positive) : Zpos (Pos.iter xO m d) = Zpos m * 2 ^ Zpos d.
Proof.
  induction d as [|d IH] using Pos.peano_ind.
  - simpl. lia.
  - rewrite Pos.iter_succ. rewrite Pos2Z.inj_xO, IH.
    rewrite Pos2Z.inj_succ, Z.pow_succ_r by lia. lia.
Qed.

(** The integer part of the exact float64 of an integer is that integer. *)
Lemma truncate_exact (s : bool) (q : Z) :
  0 <= q -> truncate (Float64.exact s q 0) = Some (if s then - q else q).
Proof.
  intros Hq. destruct q as [|q|q]; [destruct s; reflexivity| |lia].
  unfold Float64.exact, shl_align.
  destruct (fexp _ _ _ - 0) as [|d|d] eqn:Ed; simpl truncate.
  - rewrite Z.mul_1_r. reflexivity.
  - rewrite Z.mul_1_r. reflexivity.
  - assert (Hf : fexp Float64.prec Float64.emax (Zpos (digits2_pos q) + 0) = Zneg d)
      by lia.
    rewrite Hf. simpl Z.leb. cbv iota.
    rewrite iter_xO. change (- Zneg d) with (Zpos d).
    rewrite Z.div_mul; [reflexivity|].
    apply Z.pow_nonzero; lia.
Qed.

(** [math.Ceil] gives the mathematical ceiling. *)
Lemma Ceil_is_ceiling (x : spec_float) : truncate (Ceil x) = ceiling_of x.
Proof.
  destruct x as [s|s| |s m e]; try reflexivity.
  unfold Ceil, ceiling_of.
  destruct (0 <=? e) eqn:Ee.
  - simpl. rewrite Ee. destruct s; [|reflexivity].
    f_equal. change (Zneg m) with (- Zpos m). ring.
  - apply Z.leb_gt in Ee.
    assert (Hd : 0 < 2 ^ (- e)) by (apply Z.pow_pos_nonneg; lia).
    pose proof (Z.div_pos (Zpos m) _ ltac:(lia) Hd) as Hq.
    destruct s.
    + rewrite truncate_exact by exact Hq. reflexivity.
    + pose proof (Z.mod_pos_bound (Zpos m) _ Hd) as Hr.
      change (- Zpos m) with (Zneg m). change (Zneg m) with (- Zpos m).
      destruct (Zpos m mod 2 ^ (- e) =? 0) eqn:Er.
      * apply Z.eqb_eq in Er.
        rewrite truncate_exact by exact Hq.
        rewrite Z.div_opp_l_z by lia. rewrite Z.opp_involutive. reflexivity.
      * apply Z.eqb_neq in Er.
        rewrite truncate_exact by lia.
        rewrite Z.div_opp_l_nz by lia. f_equal. lia.
Qed.

End FloatFacts.

(** ** The rules on the total and on the items *)

Section ScoreFacts.

Import GoStrings Strconv GoMath.

Variable conv : spec_float -> Z.

(** C4.  When the total parses and satisfies the round-dollar rule
    ([math.Mod(total, 1) == 0]), it satisfies the quarter-multiple rule too,
    and the two rules together add exactly 75 points (50, then 25, which is
    [p + 75] as long as [int] does not wrap around). *)
Theorem round_dollar_implies_quarter (r : Receipt) (p : Z) (total : spec_float)
  (Htotal : ParseFloat (Total r) = Some total)
  (Hround : Float64.eqb (Mod total Float64.one) Float64.zero = true) :
  Float64.eqb (Mod total Float64.quarter) Float64.zero = true
  /\ round_dollar_rule r p = int_add p 50
  /\ quarter_rule r (round_dollar_rule r p) = int_add (int_add p 50) 25
  /\ (int_min <= p <= int_max - 75 -> int_add (int_add p 50) 25 = p + 75).
Proof.
  pose proof (Mod_one_quarter total Hround) as Hquarter.
  unfold round_dollar_rule, quarter_rule.
  rewrite Htotal, Hround, Hquarter.
  repeat split; try reflexivity.
  intros Hp. rewrite (int_add_exact p 50) by lia.
  rewrite int_add_exact by lia. lia.
Qed.

Lemma int_of_float64_in_int (f : spec_float) :
  int_min <= int_of_float64 conv f <= int_max.
Proof.
  unfold int_of_float64.
  destruct (truncate f) as [z|]; [|apply wrap_in_int].
  destruct (in_int z) eqn:E; [|apply wrap_in_int].
  apply in_int_spec, E.
Qed.

Lemma int_of_float64_ceiling (f : spec_float) (c : Z) :
  ceiling_of f = Some c -> int_min <= c <= int_max ->
  int_of_float64 conv (Ceil f) = c.
Proof.
  intros Hc Hin. unfold int_of_float64.
  rewrite Ceil_is_ceiling, Hc.
  apply in_int_spec in Hin. now rewrite Hin.
Qed.

Lemma len_nonneg (s : string) : 0 <= len s.
Proof. unfold len. lia. Qed.

(** A description made of spaces only is trimmed to the empty string. *)
Lemma trim_left_spaces (n : nat) (fuel : nat) :
  (n <= fuel)%nat -> trim_left fuel (string_of_list_ascii (repeat " "%char n)) = "".
Proof.
  revert fuel. induction n as [|n IH]; intros fuel Hle.
  - destruct fuel; reflexivity.
  - destruct fuel as [|fuel]; [lia|]. simpl. apply IH. lia.
Qed.

Lemma length_spaces (n : nat) :
  String.length (string_of_list_ascii (repeat " "%char n)) = n.
Proof. induction n as [|n IH]; simpl; [reflexivity|now rewrite IH]. Qed.

Lemma TrimSpace_spaces (n : nat) :
  TrimSpace (string_of_list_ascii (repeat " "%char n)) = "".
Proof.
  unfold TrimSpace, TrimLeft.
  rewrite trim_left_spaces by (rewrite length_spaces; lia).
  reflexivity.
Qed.

(** C5 (amended).  For a non-null item, the per-item rule raises no error.
    When the length in bytes of the trimmed description is a multiple of 3,
    zero included (so a description of spaces only qualifies), and the price
    parses, the rule adds the ceiling of the float64 product of the price and
    0.2, converted to [int]: the mathematical ceiling of that product when it
    is an [int] value.  The rule adds nothing when the length is not a
    multiple of 3, and nothing when the price does not parse. *)
Theorem item_rule_description_length (it : Item) (p : Z) :
  (forall price,
      Z.rem (len (TrimSpace (ShortDescription it))) 3 = 0 ->
      ParseFloat (Price it) = Some price ->
      item_rule conv (Some it) p
      = Ok (int_add p (int_of_float64 conv
                         (Ceil (Float64.mul price ITEM_PRICE_MULTIPLIER)))))
  /\ (forall price c,
      ceiling_of (Float64.mul price ITEM_PRICE_MULTIPLIER) = Some c ->
      int_min <= c <= int_max ->
      int_of_float64 conv (Ceil (Float64.mul price ITEM_PRICE_MULTIPLIER)) = c)
  /\ (Z.rem (len (TrimSpace (ShortDescription it))) 3 <> 0 ->
      item_rule conv (Some it) p = Ok p)
  /\ (ParseFloat (Price it) = None -> item_rule conv (Some it) p = Ok p)
  /\ (forall n,
      ShortDescription it = string_of_list_ascii (repeat " "%char n) ->
      Z.rem (len (TrimSpace (ShortDescription it))) 3 = 0).
Proof.
  unfold item_rule. repeat split.
  - intros price Hlen Hprice. rewrite Hlen, Hprice. reflexivity.
  - intros price c Hc Hin. exact (int_of_float64_ceiling _ c Hc Hin).
  - intros Hlen. apply Z.eqb_neq in Hlen. now rewrite Hlen.
  - intros ->. destruct (Z.rem _ 3 =? 0); reflexivity.
  - intros n ->. rewrite TrimSpace_spaces. reflexivity.
Qed.

(** C3.  Scoring the receipt of scenario A gives 28 points: get-points finds
    it under its id and answers with status 200 and 28 points. *)
Theorem scenario_A_points (id : string) (receipts : gmap string Receipt) :
  score conv scenario_A = Ok 28
  /\ getPoints conv id (<[id := scenario_A]> receipts)
     = (Ok {| status := 200; payload := Points 28 |},
        <[id := scenario_A]> receipts).
Proof.
  assert (H : score conv scenario_A = Ok 28) by (vm_compute; reflexivity).
  split; [exact H|].
  unfold getPoints. rewrite lookup_insert_eq, H. reflexivity.
Qed.

End ScoreFacts.

(** ** The sign of the score *)

Section SignFacts.

Import GoStrings Strconv GoMath.

Variable conv : spec_float -> Z.

(** Rounding keeps the sign. *)
Lemma binary_round_aux_positive (mx ex : Z) (lx : location) :
  match binary_round_aux Float64.prec Float64.emax false mx ex lx with
  | S754_zero s | S754_infinity s | S754_finite s _ _ => s = false
  | S754_nan => True
  end.
Proof.
  unfold binary_round_aux.
  destruct (shr_fexp _ _ mx ex lx) as [mrs' e'].
  destruct (shr_fexp _ _ _ e' loc_Exact) as [mrs'' e''].
  destruct (shr_m mrs''); [reflexivity| |exact I].
  destruct (e'' <=? _); reflexivity.
Qed.

Lemma ceiling_of_positive (m : positive) (e c : Z) :
  ceiling_of (S754_finite false m e) = Some c -> 0 <= c.
Proof.
  unfold ceiling_of. intros H. injection H as <-.
  destruct (0 <=? e) eqn:Ee.
  - apply Z.leb_le in Ee. apply Z.mul_nonneg_nonneg; [lia|].
    apply Z.pow_nonneg. lia.
  - apply Z.leb_gt in Ee.
    assert (Hd : 0 < 2 ^ (- e)) by (apply Z.pow_pos_nonneg; lia).
    change (- Zpos m) with (Zneg m).
    pose proof (Z.div_lt_upper_bound (Zneg m) (2 ^ (- e)) 0 Hd ltac:(lia)). lia.
Qed.

(** The points of an item with a price that is not negative are not
    negative. *)
Lemma scored_price_nonneg (price : spec_float) :
  nonnegative price = true ->
  fits_int (Ceil (Float64.mul price ITEM_PRICE_MULTIPLIER)) = true ->
  0 <= int_of_float64 conv (Ceil (Float64.mul price ITEM_PRICE_MULTIPLIER)).
Proof.
  unfold fits_int, int_of_float64. intros Hnn Hfit.
  destruct (truncate _) as [z|] eqn:Ez; [|discriminate].
  rewrite Hfit. rewrite Ceil_is_ceiling in Ez.
  destruct price as [s|s| |s m e].
  - destruct s; simpl in Ez; injection Ez as <-; lia.
  - destruct s; [discriminate Hnn|discriminate Ez].
  - discriminate Hnn.
  - destruct s; [discriminate Hnn|].
    unfold Float64.mul, ITEM_PRICE_MULTIPLIER, Float64.one_fifth, SFmul in Ez.
    cbn [xorb] in Ez.
    pose proof (binary_round_aux_positive
                  (Zpos (m * 7205759403792794)) (e + -55) loc_Exact) as Hs.
    destruct (binary_round_aux _ _ false _ _ _) as [s'|s'| |s' m' e'];
      try discriminate; subst s'.
    + injection Ez as <-. lia.
    + apply ceiling_of_positive in Ez. exact Ez.
Qed.

Lemma item_points_nonneg (it : Item) :
  scored_price_ok it -> 0 <= item_points conv (Some it).
Proof.
  unfold scored_price_ok, scored, item_points, item_rule. intros Hok.
  destruct (Z.rem _ 3 =? 0); [|lia].
  destruct (ParseFloat (Price it)) as [price|]; [|lia].
  destruct (Hok price eq_refl eq_refl) as [Hnn Hfit].
  pose proof (scored_price_nonneg price Hnn Hfit) as H0.
  pose proof (int_of_float64_in_int conv
                (Ceil (Float64.mul price ITEM_PRICE_MULTIPLIER))) as H1.
  rewrite int_add_exact by lia. lia.
Qed.

(** The loop body adds the points of the item when nothing wraps. *)
Lemma item_rule_points (it : Item) (p : Z) :
  0 <= p -> 0 <= item_points conv (Some it) ->
  p + item_points conv (Some it) <= int_max ->
  item_rule conv (Some it) p = Ok (p + item_points conv (Some it)).
Proof.
  unfold item_points, item_rule. intros Hp.
  destruct (Z.rem _ 3 =? 0); [|intros; f_equal; lia].
  destruct (ParseFloat (Price it)) as [price|]; [|intros; f_equal; lia].
  pose proof (int_of_float64_in_int conv
                (Ceil (Float64.mul price ITEM_PRICE_MULTIPLIER))) as H1.
  rewrite (int_add_exact 0) by lia. intros H0 Hsum.
  rewrite int_add_exact by (int_consts; lia). f_equal.
Qed.

Lemma items_loop_sum (items : list (option Item)) (p q : Z) :
  items_loop conv items p = Ok q ->
  0 <= p ->
  (forall it, In (Some it) items -> scored_price_ok it) ->
  p + fold_right (fun item acc => item_points conv item + acc) 0 items <= int_max ->
  0 <= q <= int_max.
Proof.
  revert p. induction items as [|item rest IH]; intros p Hrun Hp Hok Hsum.
  - simpl in *. injection Hrun as <-. lia.
  - cbn [items_loop fold_right] in *.
    destruct item as [it|]; [|discriminate Hrun].
    assert (H0 : 0 <= item_points conv (Some it))
      by (apply item_points_nonneg, Hok; now left).
    assert (Hrest : 0 <= fold_right (fun item acc => item_points conv item + acc) 0 rest).
    { clear - Hok. induction rest as [|item rest IH]; simpl; [lia|].
      assert (0 <= item_points conv item).
      { destruct item as [it'|]; [|unfold item_points; simpl; lia].
        apply item_points_nonneg, Hok. right. now left. }
      assert (0 <= fold_right (fun item acc => item_points conv item + acc) 0 rest).
      { apply IH. intros it' Hin. apply Hok. destruct Hin as [Hin|Hin].
        - now left.
        - right. now right. }
      lia. }
    rewrite item_rule_points in Hrun by lia. cbn [bind] in Hrun.
    apply (IH _ Hrun); [lia| |lia].
    intros it' Hin. apply Hok. now right.
Qed.

Lemma round_dollar_rule_bounds (r : Receipt) (p : Z) :
  0 <= p -> p + 50 <= int_max -> p <= round_dollar_rule r p <= p + 50.
Proof.
  intros H0 H1. unfold round_dollar_rule, ROUND_DOLLAR_AMOUNT_BONUS.
  destruct (ParseFloat _) as [total|]; [|lia].
  destruct (Float64.eqb _ _); [|lia].
  rewrite int_add_exact by (int_consts; lia). lia.
Qed.

Lemma quarter_rule_bounds (r : Receipt) (p : Z) :
  0 <= p -> p + 25 <= int_max -> p <= quarter_rule r p <= p + 25.
Proof.
  intros H0 H1. unfold quarter_rule, MULTIPLE_OF_0_POINT_25_BONUS.
  destruct (ParseFloat _) as [total|]; [|lia].
  destruct (Float64.eqb _ _); [|lia].
  rewrite int_add_exact by (int_consts; lia). lia.
Qed.

Lemma odd_day_rule_bounds (r : Receipt) (p q : Z) :
  odd_day_rule r p = Ok q -> 0 <= p -> p + 6 <= int_max -> p <= q <= p + 6.
Proof.
  unfold odd_day_rule, ODD_DAY_BONUS. intros H H0 H1.
  destruct (index _ 2) as [segment|]; [|discriminate]. cbn [bind] in H.
  destruct (Atoi segment) as [day|]; [|injection H as <-; lia].
  destruct (Z.rem day 2 =? 1); injection H as <-; [|lia].
  rewrite int_add_exact by (int_consts; lia). lia.
Qed.

Lemma afternoon_rule_bounds (r : Receipt) (p q : Z) :
  afternoon_rule r p = Ok q -> 0 <= p -> p + 10 <= int_max -> p <= q <= p + 10.
Proof.
  unfold afternoon_rule, BETWEEN_2PM_AND_4PM_BONUS. intros H H0 H1.
  destruct (index _ 0) as [segment|]; [|discriminate]. cbn [bind] in H.
  destruct (Atoi segment) as [hour|]; [|injection H as <-; lia].
  destruct ((14 <=? hour) && (hour <? 16)); injection H as <-; [|lia].
  rewrite int_add_exact by (int_consts; lia). lia.
Qed.

Lemma retailer_rule_eq (r : Receipt) :
  len (Regexp.ReplaceAllString_non_alnum (Retailer r)) <= int_max ->
  retailer_rule r 0 = len (Regexp.ReplaceAllString_non_alnum (Retailer r)).
Proof.
  intros H. unfold retailer_rule, int_mul, VALUE_PER_ALPHANUMERIC_CHAR.
  pose proof (len_nonneg (Regexp.ReplaceAllString_non_alnum (Retailer r))).
  rewrite Z.mul_1_r. rewrite (wrap_small (len _)) by (int_consts; lia).
  rewrite int_add_exact by (int_consts; lia). lia.
Qed.

Lemma item_pair_rule_eq (r : Receipt) (p : Z) :
  0 <= p -> p + 5 * (Z.of_nat (length (Items r)) / 2) <= int_max ->
  item_pair_rule r p = p + 5 * (Z.of_nat (length (Items r)) / 2).
Proof.
  intros H0 H1. unfold item_pair_rule, int_mul, VALUE_PER_TWO_ITEMS.
  rewrite Z.quot_div_nonneg by lia.
  pose proof (Z.div_pos (Z.of_nat (length (Items r))) 2 ltac:(lia) ltac:(lia)).
  rewrite wrap_small by (int_consts; lia).
  rewrite int_add_exact by (int_consts; lia). lia.
Qed.

(** C2 (amended).  When get-points computes a score for a receipt, the score
    is not negative provided that every item the description-length rule
    scores has a price that is zero or positive whose product with 0.2 has
    a ceiling within [int], and that the points of all rules together stay
    within [int] (no wrap-around). *)
Theorem score_nonnegative (r : Receipt) (points : Z)
  (Hscore : score conv r = Ok points)
  (Hprices : forall it, In (Some it) (Items r) -> scored_price_ok it)
  (Hbound : points_bound conv r <= int_max) :
  0 <= points <= int_max.
Proof.
  unfold points_bound in Hbound. unfold score in Hscore.
  pose proof (len_nonneg (Regexp.ReplaceAllString_non_alnum (Retailer r))) as HL.
  pose proof (Z.div_pos (Z.of_nat (length (Items r))) 2 ltac:(lia) ltac:(lia)) as HN.
  assert (HS : 0 <= fold_right (fun item acc => item_points conv item + acc) 0 (Items r)).
  { clear - Hprices. induction (Items r) as [|item rest IH]; simpl; [lia|].
    assert (0 <= item_points conv item).
    { destruct item as [it|]; [|unfold item_points; simpl; lia].
      apply item_points_nonneg, Hprices. now left. }
    assert (0 <= fold_right (fun item acc => item_points conv item + acc) 0 rest).
    { apply IH. intros it Hin. apply Hprices. now right. }
    lia. }
  rewrite retailer_rule_eq in Hscore by lia.
  rewrite item_pair_rule_eq in Hscore by lia.
  set (p2 := len _ + 5 * _) in *.
  pose proof (round_dollar_rule_bounds r p2 ltac:(lia) ltac:(lia)) as H3.
  set (p3 := round_dollar_rule r p2) in *.
  pose proof (quarter_rule_bounds r p3 ltac:(lia) ltac:(lia)) as H4.
  set (p4 := quarter_rule r p3) in *.
  destruct (odd_day_rule r p4) as [p5|] eqn:E5; [|discriminate].
  cbn [bind] in Hscore.
  pose proof (odd_day_rule_bounds r p4 p5 E5 ltac:(lia) ltac:(lia)) as H5.
  destruct (afternoon_rule r p5) as [p6|] eqn:E6; [|discriminate].
  cbn [bind] in Hscore.
  pose proof (afternoon_rule_bounds r p5 p6 E6 ltac:(lia) ltac:(lia)) as H6.
  apply (items_loop_sum _ _ _ Hscore); [lia|exact Hprices|lia].
Qed.

End SignFacts.

(** ** The binding and the two handlers *)

Section HandlerFacts.

Import Binding.

Variable conv : spec_float -> Z.

Lemma names_fold (key name : string) :
  names key name = true -> foldName key = foldName name.
Proof.
  unfold names. intros H. apply orb_true_iff in H as [H|H].
  - apply String.eqb_eq in H. now subst.
  - now apply String.eqb_eq in H.
Qed.

(** A key names at most one field. *)
Lemma names_one_field (key : string) (f g : field) :
  names key (field_name f) = true -> names key (field_name g) = true -> f = g.
Proof.
  intros Hf Hg. apply names_fold in Hf, Hg. rewrite Hf in Hg.
  destruct f, g; try reflexivity; vm_compute in Hg; discriminate Hg.
Qed.

Ltac decode_step H :=
  match type of H with
  | context [if names ?k ?n then _ else _] => destruct (names k n) eqn:?
  | context [match decode_string ?v ?o with _ => _ end] =>
      destruct (decode_string v o) eqn:?
  | context [match decode_items ?v ?o with _ => _ end] =>
      destruct (decode_items v o) eqn:?
  end.

(** A field that no key names keeps its value through the decoding. *)
Lemma decode_members_keeps (f : field) (members : list (string * json))
  (r r' : receipt_var) :
  (forall key v, In (key, v) members -> names key (field_name f) = false) ->
  decode_members members r = Some r' ->
  field_unset f r' = field_unset f r.
Proof.
  revert r. induction members as [|[key v] rest IH]; intros r Hno Hdec.
  - simpl in Hdec. now injection Hdec as <-.
  - assert (Hrest : forall key v, In (key, v) rest -> names key (field_name f) = false)
      by (intros k w Hin; apply (Hno k w); now right).
    pose proof (Hno key v (or_introl eq_refl)) as Hk.
    cbn [decode_members] in Hdec.
    repeat decode_step Hdec; try discriminate Hdec;
      apply (IH _ Hrest) in Hdec; rewrite Hdec;
      destruct f; try reflexivity; simpl in Hk; congruence.
Qed.

(** A body that lacks a required field does not bind. *)
Lemma missing_field_fails (f : field) (members : list (string * json)) :
  (forall key v, In (key, v) members -> names key (field_name f) = false) ->
  ShouldBindJSON (Some (JObject members)) = None.
Proof.
  intros Hno. unfold ShouldBindJSON, decode.
  destruct (decode_members members zero_receipt) as [r|] eqn:Hdec; [|reflexivity].
  pose proof (decode_members_keeps f members _ _ Hno Hdec) as Hkeep.
  replace (validate r) with false; [reflexivity|].
  unfold validate, required_string. symmetry.
  destruct f; simpl in Hkeep.
  - rewrite Hkeep. reflexivity.
  - rewrite Hkeep. simpl. now rewrite andb_false_r.
  - rewrite Hkeep. simpl. now rewrite !andb_false_r.
  - rewrite Hkeep. simpl. now rewrite !andb_false_r.
  - apply negb_true_iff in Hkeep. rewrite Hkeep. now rewrite !andb_false_r.
Qed.

(** A body with a value of the wrong shape for a field does not bind. *)
Lemma wrong_shape_fails (f : field) (members : list (string * json))
  (key : string) (v : json) :
  In (key, v) members -> names key (field_name f) = true ->
  wrong_shape f v = true ->
  ShouldBindJSON (Some (JObject members)) = None.
Proof.
  intros Hin Hkey Hshape.
  assert (Hdec : forall r, decode_members members r = None).
  { induction members as [|[key' v'] rest IH]; intros r; [destruct Hin|].
    cbn [decode_members].
    destruct Hin as [Heq|Hin].
    - injection Heq as -> ->.
      assert (Hother : forall g, g <> f -> names key (field_name g) = false).
      { intros g Hg. destruct (names key (field_name g)) eqn:E; [|reflexivity].
        destruct Hg. apply (names_one_field key); assumption. }
      pose proof (Hother FRetailer) as H1. pose proof (Hother FPurchaseDate) as H2.
      pose proof (Hother FPurchaseTime) as H3. pose proof (Hother FTotal) as H4.
      simpl in H1, H2, H3, H4.
      destruct f; simpl in Hkey;
        try (rewrite H1 by discriminate); try (rewrite H2 by discriminate);
        try (rewrite H3 by discriminate); try (rewrite H4 by discriminate);
        rewrite Hkey; destruct v; try discriminate Hshape; reflexivity.
    - specialize (IH Hin).
      repeat match goal with
      | |- context [if names ?k ?n then _ else _] => destruct (names k n)
      | |- context [match decode_string ?a ?b with _ => _ end] =>
          destruct (decode_string a b)
      | |- context [match decode_items ?a ?b with _ => _ end] =>
          destruct (decode_items a b)
      end; auto. }
  unfold ShouldBindJSON, decode. now rewrite Hdec.
Qed.

(** The round trip, as far as it holds: the receipt a body binds to is found
    under the id submit-receipt answers with, and get-points answers with its
    score whenever the scoring runs to its end. *)
Lemma round_trip_lookup (request_body : option json) (id : string)
  (receipts : gmap string Receipt) (r : Receipt) :
  ShouldBindJSON request_body = Some r ->
  let '(answer, receipts') := processReceipts request_body id receipts in
  answer = Ok {| status := 200; payload := Id id |}
  /\ receipts' !! id = Some r
  /\ forall points, score conv r = Ok points ->
       getPoints conv id receipts'
       = (Ok {| status := 200; payload := Points points |}, receipts').
Proof.
  intros Hbind. unfold processReceipts. rewrite Hbind.
  repeat split.
  - apply lookup_insert_eq.
  - intros points Hscore. unfold getPoints.
    rewrite lookup_insert_eq, Hscore. reflexivity.
Qed.

(** get-points leaves the map as it is, whatever it answers. *)
Lemma getPoints_reads (id : string) (receipts : gmap string Receipt) :
  snd (getPoints conv id receipts) = receipts.
Proof.
  unfold getPoints. destruct (receipts !! id) as [r|]; [|reflexivity].
  destruct (score conv r); reflexivity.
Qed.

(** A request touches no id but the one it generates. *)
Lemma serve_other_id (req : request) (receipts : gmap string Receipt) (id : string) :
  ~ In id (generated [req]) ->
  snd (serve conv req receipts) !! id = receipts !! id.
Proof.
  destruct req as [request_body xid|id']; simpl; intros Hid.
  - unfold processReceipts. destruct (ShouldBindJSON request_body); [|reflexivity].
    simpl. apply lookup_insert_ne. intros ->. apply Hid. now left.
  - now rewrite getPoints_reads.
Qed.

(** What is stored under an id stays there, and what is absent stays absent,
    as long as the id is not generated again: there is no update and no
    deletion. *)
Lemma serve_all_other_id (reqs : list request) (receipts : gmap string Receipt)
  (id : string) :
  ~ In id (generated reqs) ->
  serve_all conv reqs receipts !! id = receipts !! id.
Proof.
  revert receipts. induction reqs as [|req rest IH]; intros receipts Hid.
  - reflexivity.
  - cbn [serve_all]. rewrite IH.
    + apply serve_other_id. intros Hin. apply Hid. unfold generated in *.
      simpl in *. rewrite app_nil_r in Hin. apply in_or_app. now left.
    + intros Hin. apply Hid. unfold generated in *. simpl.
      apply in_or_app. now right.
Qed.

(** A rejected submission leaves no trace in the run of the server. *)
Lemma rejected_submission_no_trace (before_it after_it : list request)
  (request_body : option json) (xid : string) (receipts : gmap string Receipt) :
  ShouldBindJSON request_body = None ->
  serve_all conv (before_it ++ POST_receipts_process request_body xid :: after_it)
    receipts
  = serve_all conv (before_it ++ after_it) receipts.
Proof.
  intros Hbind. revert receipts.
  induction before_it as [|req rest IH]; intros receipts.
  - simpl. unfold processReceipts. now rewrite Hbind.
  - simpl. apply IH.
Qed.

(** An id that was never generated is unknown to get-points. *)
Lemma never_generated_unknown (reqs : list request) (id : string) :
  ~ In id (generated reqs) -> serve_all conv reqs ∅ !! id = None.
Proof. intros Hid. rewrite serve_all_other_id by exact Hid. apply lookup_empty. Qed.

(** Scoring a date with fewer than two separators panics. *)
Lemma short_date_panics (r : Receipt) (id : string)
  (receipts : gmap string Receipt) :
  (GoStrings.Count (PurchaseDate r) "-" < 2)%nat ->
  receipts !! id = Some r ->
  getPoints conv id receipts = (Panic "runtime error: index out of range", receipts).
Proof.
  intros Hc Hid. unfold getPoints, score, odd_day_rule.
  rewrite Hid, (index_Split_short _ Hc). reflexivity.
Qed.

(** C7.  When the body does not bind to a receipt, submit-receipt answers
    with status 400 and the description "The receipt is invalid", and the map
    of receipts is what it was, so that every id resolves as before.  A body
    that lacks one of the five required fields, or gives one of them a value
    of the wrong shape, does not bind. *)
Theorem invalid_receipt_rejected (id : string) (receipts : gmap string Receipt) :
  (forall request_body,
      ShouldBindJSON request_body = None ->
      processReceipts request_body id receipts
      = (Ok {| status := 400; payload := Description "The receipt is invalid" |},
         receipts))
  /\ (forall f members,
      (forall key v, In (key, v) members -> names key (field_name f) = false) ->
      ShouldBindJSON (Some (JObject members)) = None)
  /\ (forall f members key v,
      In (key, v) members -> names key (field_name f) = true ->
      wrong_shape f v = true ->
      ShouldBindJSON (Some (JObject members)) = None).
Proof.
  repeat split.
  - intros request_body Hbind. unfold processReceipts. rewrite Hbind. reflexivity.
  - apply missing_field_fails.
  - apply wrong_shape_fails.
Qed.

(** C9.  For an id that is not in the map of receipts, get-points answers
    with status 400 (not 404) and the description "No receipt found for that
    id"; it does not panic and the map is what it was.  Such is every id that
    the server never generated, whatever requests it has served. *)
Theorem unknown_id_rejected (id : string) :
  (forall receipts : gmap string Receipt,
      receipts !! id = None ->
      getPoints conv id receipts
      = (Ok {| status := 400;
               payload := Description "No receipt found for that id" |},
         receipts))
  /\ (forall reqs, ~ In id (generated reqs) -> serve_all conv reqs ∅ !! id = None).
Proof.
  split.
  - intros receipts Hid. unfold getPoints. rewrite Hid. reflexivity.
  - intros reqs. apply never_generated_unknown.
Qed.

End HandlerFacts.

(** ** The statements at concrete inputs *)

Import GoStrings Strconv GoMath Binding.

(** The amended C1 at the date 2022-01-01: two separators, the third piece
    "01" parses as 1, which is odd, and the rule adds 6 points. *)
Lemma odd_day_rule_third_piece_witness :
  (2 <= Count "2022-01-01" "-")%nat
  /\ odd_day_rule (receipt_with "2022-01-01" "13:01" "1.10" []) 0 = Ok 6.
Proof.
  assert (Hsep : (2 <= Count (PurchaseDate (receipt_with "2022-01-01" "13:01" "1.10" []))
                            "-")%nat) by (vm_compute; lia).
  split; [exact Hsep|].
  exact (proj1 (proj1 (odd_day_rule_third_piece int_indefinite
                         (receipt_with "2022-01-01" "13:01" "1.10" []) 0 Hsep)
                      1 eq_refl eq_refl)).
Defined.

(** C1 as stated fails.  The date 2022-01-03-04 has three separators, and the
    rule still adds 6 points for its third piece; the date bad-date has one
    separator, and get-points panics on it instead of returning a score. *)
Lemma odd_day_rule_malformed_date :
  Count "2022-01-03-04" "-" = 3%nat
  /\ odd_day_rule (receipt_with "2022-01-03-04" "13:01" "1.10" []) 0 = Ok 6
  /\ Count "bad-date" "-" = 1%nat
  /\ getPoints int_indefinite "id"
       (<["id" := receipt_with "bad-date" "13:01" "1.10" []]> ∅)
     = (Panic "runtime error: index out of range",
        <["id" := receipt_with "bad-date" "13:01" "1.10" []]> ∅).
Proof. repeat split; vm_compute; reflexivity. Qed.

(** The amended C6 at the time 14:30: the text before the colon parses as 14
    and the rule adds 10 points. *)
Lemma afternoon_rule_hour_witness :
  afternoon_rule (receipt_with "2022-01-02" "14:30" "1.10" []) 0 = Ok 10.
Proof.
  exact (proj1 (proj1 (afternoon_rule_hour
                         (receipt_with "2022-01-02" "14:30" "1.10" []) 0)
                      14 eq_refl ltac:(lia))).
Defined.

(** C6 as stated fails: the time "14" is not of the form HH:MM, and the rule
    adds 10 points for it; so it does for "14:xx". *)
Lemma afternoon_rule_malformed_time :
  HH_MM "14" = false
  /\ afternoon_rule (receipt_with "2022-01-02" "14" "1.10" []) 0 = Ok 10
  /\ HH_MM "14:xx" = false
  /\ afternoon_rule (receipt_with "2022-01-02" "14:xx" "1.10" []) 0 = Ok 10.
Proof. repeat split; vm_compute; reflexivity. Qed.

(** C4 at the total 9.00: both bonuses apply, 75 points together. *)
Lemma round_dollar_implies_quarter_witness :
  ParseFloat "9.00" = Some (S754_finite false 5066549580791808 (-49))
  /\ quarter_rule (receipt_with "2022-01-02" "13:01" "9.00" [])
       (round_dollar_rule (receipt_with "2022-01-02" "13:01" "9.00" []) 0)
     = 75.
Proof.
  assert (Htotal : ParseFloat (Total (receipt_with "2022-01-02" "13:01" "9.00" []))
                   = Some (S754_finite false 5066549580791808 (-49)))
    by (vm_compute; reflexivity).
  split; [exact Htotal|].
  exact (proj1 (proj2 (proj2 (round_dollar_implies_quarter
                                (receipt_with "2022-01-02" "13:01" "9.00" []) 0 _
                                Htotal eq_refl)))).
Defined.

(** The amended C5 at the item "Emils Cheese Pizza" (18 bytes) priced 12.25:
    the float64 product with 0.2 has ceiling 3, and the rule adds 3 points. *)
Lemma item_rule_description_length_witness :
  item_rule int_indefinite
    (Some {| ShortDescription := "Emils Cheese Pizza"; Price := "12.25" |}) 0
  = Ok 3.
Proof.
  assert (Hlen : Z.rem (len (TrimSpace "Emils Cheese Pizza")) 3 = 0)
    by (vm_compute; reflexivity).
  assert (Hprice : ParseFloat "12.25" = Some (S754_finite false 6896136929411072 (-49)))
    by (vm_compute; reflexivity).
  pose proof (proj1 (item_rule_description_length int_indefinite
                       {| ShortDescription := "Emils Cheese Pizza"; Price := "12.25" |} 0)
                    _ Hlen Hprice) as H.
  vm_compute in H. vm_compute. exact H.
Defined.

(** C5 as stated fails: a description of three spaces is trimmed to length 0,
    and the rule still adds a point for the price 5.00. *)
Lemma item_rule_empty_description :
  len (TrimSpace "   ") = 0
  /\ item_rule int_indefinite (Some {| ShortDescription := "   "; Price := "5.00" |}) 0
     = Ok 1.
Proof. split; vm_compute; reflexivity. Qed.

(** The amended C2 at the receipt of scenario A: every price is positive, the
    bound is far from the largest [int], and the score is not negative. *)
Lemma score_nonnegative_witness :
  score int_indefinite scenario_A = Ok 28 /\ 0 <= 28 <= int_max.
Proof.
  assert (Hscore : score int_indefinite scenario_A = Ok 28)
    by (vm_compute; reflexivity).
  assert (Hprices : forall it, In (Some it) (Items scenario_A) -> scored_price_ok it).
  { intros it Hin. simpl in Hin.
    repeat (destruct Hin as [Hin|Hin];
            [injection Hin as <-; intros price _ Hprice;
             vm_compute in Hprice; injection Hprice as <-;
             split; vm_compute; reflexivity|]).
    destruct Hin. }
  assert (Hbound : points_bound int_indefinite scenario_A <= int_max)
    by (vm_compute; discriminate).
  split; [exact Hscore|].
  exact (score_nonnegative int_indefinite scenario_A 28 Hscore Hprices Hbound).
Defined.

(** C2 as stated fails: a body whose one item has the price -100 binds to a
    receipt, and get-points answers with -19 points for it (1 for the
    retailer, -20 for the item). *)
Lemma score_negative_price :
  ShouldBindJSON
    (Some (payload_with "2022-01-02"
             [JObject [("shortDescription", JString "abc"); ("price", JString "-100")]]))
  = Some (receipt_with "2022-01-02" "13:01" "1.10"
            [Some {| ShortDescription := "abc"; Price := "-100" |}])
  /\ getPoints int_indefinite "id"
       (<["id" := receipt_with "2022-01-02" "13:01" "1.10"
                    [Some {| ShortDescription := "abc"; Price := "-100" |}]]> ∅)
     = (Ok {| status := 200; payload := Points (-19) |},
        <["id" := receipt_with "2022-01-02" "13:01" "1.10"
                    [Some {| ShortDescription := "abc"; Price := "-100" |}]]> ∅)
  /\ -19 < 0.
Proof. repeat split; vm_compute; reflexivity. Qed.

(** C7 at a body without the key [retailer]. *)
Lemma invalid_receipt_rejected_witness :
  processReceipts
    (Some (JObject [("purchaseDate", JString "2022-01-01");
                    ("purchaseTime", JString "13:01");
                    ("total", JString "1.10"); ("items", JArray [])]))
    "id" ∅
  = (Ok {| status := 400; payload := Description "The receipt is invalid" |}, ∅).
Proof.
  apply (proj1 (invalid_receipt_rejected "id" ∅)).
  apply (proj1 (proj2 (invalid_receipt_rejected "id" ∅)) FRetailer).
  intros key v Hin. simpl in Hin.
  repeat (destruct Hin as [Hin|Hin]; [injection Hin as <- <-; vm_compute; reflexivity|]).
  destruct Hin.
Defined.

(** C9 at the empty map of receipts. *)
Lemma unknown_id_rejected_witness :
  getPoints int_indefinite "id" ∅
  = (Ok {| status := 400; payload := Description "No receipt found for that id" |},
     ∅).
Proof.
  apply (proj1 (unknown_id_rejected int_indefinite "id")). apply lookup_empty.
Defined.

(** C8 on the code.  The elements of [items] are not validated: a body whose
    one item is the empty object binds, submit-receipt answers with status
    200 and stores an item without description and price; a null element is
    stored as a nil pointer, on which get-points panics. *)
Theorem items_elements_not_validated (receipts : gmap string Receipt) :
  processReceipts (Some (payload_with "2022-01-01" [JObject []])) "id" receipts
  = (Ok {| status := 200; payload := Id "id" |},
     <["id" := receipt_with "2022-01-01" "13:01" "1.10"
                 [Some {| ShortDescription := ""; Price := "" |}]]> receipts)
  /\ processReceipts (Some (payload_with "2022-01-01" [JNull])) "id" receipts
     = (Ok {| status := 200; payload := Id "id" |},
        <["id" := receipt_with "2022-01-01" "13:01" "1.10" [None]]> receipts)
  /\ fst (getPoints int_indefinite "id"
            (<["id" := receipt_with "2022-01-01" "13:01" "1.10" [None]]> receipts))
     = Panic "runtime error: invalid memory address or nil pointer dereference".
Proof.
  repeat split.
  unfold getPoints. rewrite lookup_insert_eq. reflexivity.
Qed.

(** C10 on the code.  A body with the purchase date bad-date binds and
    submit-receipt answers with status 200 and the id; get-points then finds
    the receipt under that id and panics while scoring it (index out of
    range), so no answer with status 200 and a score follows. *)
Theorem round_trip_panics (receipts : gmap string Receipt) :
  processReceipts (Some (payload_with "bad-date" [])) "id" receipts
  = (Ok {| status := 200; payload := Id "id" |},
     <["id" := receipt_with "bad-date" "13:01" "1.10" []]> receipts)
  /\ (<["id" := receipt_with "bad-date" "13:01" "1.10" []]> receipts) !! "id"
     = Some (receipt_with "bad-date" "13:01" "1.10" [])
  /\ fst (getPoints int_indefinite "id"
            (<["id" := receipt_with "bad-date" "13:01" "1.10" []]> receipts))
     = Panic "runtime error: index out of range"
  /\ status_sent
       (fst (getPoints int_indefinite "id"
               (<["id" := receipt_with "bad-date" "13:01" "1.10" []]> receipts)))
     = 500.
Proof.
  repeat split.
  - apply lookup_insert_eq.
  - unfold getPoints. rewrite lookup_insert_eq. reflexivity.
  - unfold getPoints. rewrite lookup_insert_eq. reflexivity.
Qed.

(** * Further properties of the handlers *)

(** ** The structure of the score *)

Section ScoreStructure.

Import GoStrings Strconv GoMath.

Variable conv : spec_float -> Z.

Lemma wrap_add_l (a b : Z) : wrap (wrap a + b) = wrap (a + b).
Proof.
  unfold wrap. f_equal.
  replace ((a + 2 ^ 63) mod 2 ^ 64 - 2 ^ 63 + b + 2 ^ 63)
    with ((a + 2 ^ 63) mod 2 ^ 64 + b) by lia.
  rewrite Zplus_mod_idemp_l. f_equal. lia.
Qed.

Lemma wrap_add_r (a b : Z) : wrap (a + wrap b) = wrap (a + b).
Proof. rewrite (Z.add_comm a), wrap_add_l. f_equal. lia. Qed.

Lemma wrap_wrap (a : Z) : wrap (wrap a) = wrap a.
Proof. apply wrap_small, wrap_in_int. Qed.

Lemma retailer_rule_sum (r : Receipt) :
  retailer_rule r 0 = wrap (retailer_points r).
Proof.
  unfold retailer_rule, retailer_points, int_add, int_mul,
    VALUE_PER_ALPHANUMERIC_CHAR.
  rewrite Z.mul_1_r. simpl Z.add. apply wrap_wrap.
Qed.

Lemma item_pair_rule_sum (r : Receipt) (p : Z) :
  item_pair_rule r p = wrap (p + pair_points r).
Proof.
  unfold item_pair_rule, pair_points, int_add, int_mul, VALUE_PER_TWO_ITEMS.
  apply wrap_add_r.
Qed.

Lemma round_dollar_rule_sum (r : Receipt) (p : Z) :
  int_min <= p <= int_max ->
  round_dollar_rule r p = wrap (p + round_dollar_rule r 0).
Proof.
  intros Hp. unfold round_dollar_rule.
  destruct (ParseFloat _) as [total|];
    [|rewrite Z.add_0_r; symmetry; now apply wrap_small].
  destruct (Float64.eqb _ _);
    [|rewrite Z.add_0_r; symmetry; now apply wrap_small].
  unfold int_add. simpl (0 + _). now rewrite wrap_add_r.
Qed.

Lemma quarter_rule_sum (r : Receipt) (p : Z) :
  int_min <= p <= int_max ->
  quarter_rule r p = wrap (p + quarter_rule r 0).
Proof.
  intros Hp. unfold quarter_rule.
  destruct (ParseFloat _) as [total|];
    [|rewrite Z.add_0_r; symmetry; now apply wrap_small].
  destruct (Float64.eqb _ _);
    [|rewrite Z.add_0_r; symmetry; now apply wrap_small].
  unfold int_add. simpl (0 + _). now rewrite wrap_add_r.
Qed.

Lemma odd_day_rule_sum (r : Receipt) (p q : Z) :
  odd_day_rule r p = Ok q -> int_min <= p <= int_max ->
  q = wrap (p + day_points r).
Proof.
  unfold day_points, odd_day_rule. intros H Hp.
  destruct (index _ 2) as [segment|]; [|discriminate]. cbn [bind] in *.
  destruct (Atoi segment) as [day|];
    [|injection H as <-; rewrite Z.add_0_r; symmetry; now apply wrap_small].
  destruct (Z.rem day 2 =? 1); injection H as <-;
    [|rewrite Z.add_0_r; symmetry; now apply wrap_small].
  unfold int_add. simpl (0 + _). now rewrite wrap_add_r.
Qed.

Lemma afternoon_rule_sum (r : Receipt) (p q : Z) :
  afternoon_rule r p = Ok q -> int_min <= p <= int_max ->
  q = wrap (p + hour_points r).
Proof.
  unfold hour_points, afternoon_rule. intros H Hp.
  destruct (index _ 0) as [segment|]; [|discriminate]. cbn [bind] in *.
  destruct (Atoi segment) as [hour|];
    [|injection H as <-; rewrite Z.add_0_r; symmetry; now apply wrap_small].
  destruct ((14 <=? hour) && (hour <? 16)); injection H as <-;
    [|rewrite Z.add_0_r; symmetry; now apply wrap_small].
  unfold int_add. simpl (0 + _). now rewrite wrap_add_r.
Qed.

(** The loop body adds the points of the item, modulo 2^64. *)
Lemma item_rule_sum (it : Item) (p : Z) :
  int_min <= p <= int_max ->
  item_rule conv (Some it) p = Ok (wrap (p + item_points conv (Some it))).
Proof.
  intros Hp. unfold item_points, item_rule.
  destruct (Z.rem _ 3 =? 0);
    [|rewrite Z.add_0_r; f_equal; symmetry; now apply wrap_small].
  destruct (ParseFloat _) as [price|];
    [|rewrite Z.add_0_r; f_equal; symmetry; now apply wrap_small].
  unfold int_add. simpl (0 + _). now rewrite wrap_add_r.
Qed.

Lemma items_loop_sum_wrap (items : list (option Item)) (p q : Z) :
  items_loop conv items p = Ok q -> int_min <= p <= int_max ->
  q = wrap (p + items_points conv items).
Proof.
  revert p. induction items as [|item rest IH]; intros p Hrun Hp.
  - simpl in *. injection Hrun as <-. rewrite Z.add_0_r.
    symmetry. now apply wrap_small.
  - cbn [items_loop items_points fold_right] in *.
    destruct item as [it|]; [|discriminate Hrun].
    rewrite (item_rule_sum it p Hp) in Hrun. cbn [bind] in Hrun.
    apply IH in Hrun; [|apply wrap_in_int].
    rewrite Hrun. fold (items_points conv rest).
    rewrite wrap_add_l. f_equal. lia.
Qed.

(** A nil item makes the loop panic, whatever its place. *)
Lemma items_loop_nil (items : list (option Item)) (p : Z) :
  In None items ->
  items_loop conv items p
  = Panic "runtime error: invalid memory address or nil pointer dereference".
Proof.
  revert p. induction items as [|item rest IH]; intros p Hin; [destruct Hin|].
  cbn [items_loop]. destruct item as [it|]; [|reflexivity].
  destruct (item_rule_Some conv it p) as (q & ->). cbn [bind].
  apply IH. destruct Hin as [Hin|Hin]; [discriminate Hin|exact Hin].
Qed.

Lemma all_Some_or_nil (items : list (option Item)) :
  Forall is_Some items \/ In None items.
Proof.
  induction items as [|item rest [IH|IH]].
  - left. constructor.
  - destruct item as [it|]; [|right; now left].
    left. constructor; [now exists it|exact IH].
  - right. now right.
Qed.

End ScoreStructure.

Section ScoreTheorems.

Import GoStrings Strconv GoMath.

Variable conv : spec_float -> Z.

(** X1.  The scoring of a receipt runs to its end exactly when the purchase
    date has at least two [-] separators and no item is a nil pointer;
    otherwise the handler panics. *)
Theorem score_defined_iff (r : Receipt) :
  (exists points, score conv r = Ok points)
  <-> (2 <= Count (PurchaseDate r) "-")%nat /\ Forall is_Some (Items r).
Proof.
  split.
  - intros [points Hscore]. split.
    + destruct (Nat.le_gt_cases 2 (Count (PurchaseDate r) "-")) as [Hc|Hc];
        [exact Hc|exfalso].
      unfold score, odd_day_rule in Hscore.
      rewrite (index_Split_short _ Hc) in Hscore. discriminate Hscore.
    + destruct (all_Some_or_nil (Items r)) as [Hall|Hnil]; [exact Hall|exfalso].
      unfold score in Hscore.
      destruct (odd_day_rule r _) as [p5|]; [|discriminate]. cbn [bind] in Hscore.
      destruct (afternoon_rule r p5) as [p6|]; [|discriminate]. cbn [bind] in Hscore.
      rewrite (items_loop_nil conv _ p6 Hnil) in Hscore. discriminate Hscore.
  - intros [Hc Hall]. apply score_total; assumption.
Qed.

(** X2.  The rules are additive: when the scoring runs to its end, the score
    is the sum of what each rule adds on its own, reduced to the 64-bit range
    of [int]. *)
Theorem score_sum_of_rules (r : Receipt) (points : Z)
  (Hscore : score conv r = Ok points) :
  points = wrap (rules_sum conv r) /\ int_min <= points <= int_max.
Proof.
  assert (Heq : points = wrap (rules_sum conv r)).
  { unfold score in Hscore. unfold rules_sum.
    rewrite retailer_rule_sum, item_pair_rule_sum in Hscore.
    rewrite (round_dollar_rule_sum r (wrap _)) in Hscore by apply wrap_in_int.
    rewrite (quarter_rule_sum r (wrap _)) in Hscore by apply wrap_in_int.
    destruct (odd_day_rule r _) as [p5|] eqn:E5; [|discriminate].
    cbn [bind] in Hscore.
    apply odd_day_rule_sum in E5; [|apply wrap_in_int].
    destruct (afternoon_rule r p5) as [p6|] eqn:E6; [|discriminate].
    cbn [bind] in Hscore.
    apply afternoon_rule_sum in E6; [|rewrite E5; apply wrap_in_int].
    apply items_loop_sum_wrap in Hscore; [|rewrite E6; apply wrap_in_int].
    rewrite Hscore, E6, E5.
    repeat (rewrite <- ?Z.add_assoc; rewrite wrap_add_l).
    rewrite <- ?Z.add_assoc. reflexivity. }
  split; [exact Heq|]. rewrite Heq. apply wrap_in_int.
Qed.

Lemma bind_assoc {A B C : Type} (m : result A) (f : A -> result B)
  (g : B -> result C) :
  bind (bind m f) g = bind m (fun a => bind (f a) g).
Proof. destruct m; reflexivity. Qed.

Lemma item_rule_in_int (item : option Item) (p q : Z) :
  item_rule conv item p = Ok q -> int_min <= p <= int_max ->
  int_min <= q <= int_max.
Proof.
  destruct item as [it|]; [|discriminate].
  intros H Hp. rewrite (item_rule_sum conv it p Hp) in H.
  injection H as <-. apply wrap_in_int.
Qed.

(** Two items can be scored in either order. *)
Lemma item_rule_swap (x y : option Item) (p : Z) :
  int_min <= p <= int_max ->
  (do q <- item_rule conv x p; item_rule conv y q)
  = (do q <- item_rule conv y p; item_rule conv x q).
Proof.
  intros Hp. destruct x as [x|], y as [y|]; try reflexivity.
  - rewrite !(item_rule_sum conv _ p Hp). cbn [bind].
    rewrite !item_rule_sum by apply wrap_in_int.
    rewrite !wrap_add_l. do 2 f_equal. lia.
  - rewrite (item_rule_sum conv x p Hp). reflexivity.
  - rewrite (item_rule_sum conv y p Hp). reflexivity.
Qed.

Lemma items_loop_Permutation (items items' : list (option Item)) (p : Z) :
  Permutation items items' -> int_min <= p <= int_max ->
  items_loop conv items p = items_loop conv items' p.
Proof.
  intros Hperm. revert p.
  induction Hperm as [|x l l' _ IH|x y l|l l' l'' _ IH1 _ IH2]; intros p Hp.
  - reflexivity.
  - cbn [items_loop]. destruct (item_rule conv x p) as [q|msg] eqn:E; [|reflexivity].
    cbn [bind]. apply IH. exact (item_rule_in_int x p q E Hp).
  - cbn [items_loop].
    transitivity (bind (do q <- item_rule conv y p; item_rule conv x q)
                       (items_loop conv l));
      [symmetry; apply bind_assoc|].
    rewrite (item_rule_swap y x p Hp). apply bind_assoc.
  - rewrite IH1 by exact Hp. apply IH2. exact Hp.
Qed.

(** X3.  The order of the items does not matter: two receipts with the same
    retailer, date, time and total whose items are the same up to their order
    get the same score (or the same panic). *)
Theorem score_items_order (r r' : Receipt)
  (Hret : Retailer r = Retailer r')
  (Hdate : PurchaseDate r = PurchaseDate r')
  (Htime : PurchaseTime r = PurchaseTime r')
  (Htotal : Total r = Total r')
  (Hitems : Permutation (Items r) (Items r')) :
  score conv r = score conv r'.
Proof.
  unfold score.
  rewrite !retailer_rule_sum, !item_pair_rule_sum.
  unfold retailer_points, pair_points.
  rewrite <- Hret, <- (Permutation_length Hitems).
  set (p2 := wrap _).
  assert (H3 : round_dollar_rule r' p2 = round_dollar_rule r p2)
    by (unfold round_dollar_rule; now rewrite Htotal).
  rewrite H3. set (p3 := round_dollar_rule r p2).
  assert (H4 : quarter_rule r' p3 = quarter_rule r p3)
    by (unfold quarter_rule; now rewrite Htotal).
  rewrite H4. set (p4 := quarter_rule r p3).
  assert (Hp4 : int_min <= p4 <= int_max).
  { unfold p4. rewrite quarter_rule_sum; [apply wrap_in_int|].
    unfold p3. rewrite round_dollar_rule_sum; apply wrap_in_int. }
  assert (H5 : odd_day_rule r' p4 = odd_day_rule r p4)
    by (unfold odd_day_rule; now rewrite Hdate).
  rewrite H5. destruct (odd_day_rule r p4) as [p5|] eqn:E5; [|reflexivity].
  cbn [bind].
  assert (Hp5 : int_min <= p5 <= int_max).
  { rewrite (odd_day_rule_sum r p4 p5 E5 Hp4). apply wrap_in_int. }
  assert (H6 : afternoon_rule r' p5 = afternoon_rule r p5)
    by (unfold afternoon_rule; now rewrite Htime).
  rewrite H6. destruct (afternoon_rule r p5) as [p6|] eqn:E6; [|reflexivity].
  cbn [bind]. apply items_loop_Permutation; [exact Hitems|].
  rewrite (afternoon_rule_sum r p5 p6 E6 Hp5). apply wrap_in_int.
Qed.

End ScoreTheorems.

(** ** Dates, times, totals and retailers of the documented forms *)

Section FieldForms.

Import GoStrings Strconv GoMath.

Lemma append_cons (c : ascii) (a b : string) :
  String.append (String c a) b = String c (String.append a b).
Proof. reflexivity. Qed.

(** Splitting after a piece that holds no separator. *)
Lemma Split_append (a rest : string) (sep : ascii) :
  Count a sep = 0%nat ->
  Split (String.append a (String sep rest)) sep = a :: Split rest sep.
Proof.
  induction a as [|c a IH]; intros Hc.
  - change (String.append "" (String sep rest)) with (String sep rest).
    cbn [Split]. now rewrite Ascii.eqb_refl.
  - rewrite append_cons. cbn [Split Count] in *.
    destruct (Ascii.eqb c sep); [discriminate Hc|].
    rewrite IH by exact Hc. reflexivity.
Qed.

Lemma Count_append (a b : string) (sep : ascii) :
  Count (String.append a b) sep = (Count a sep + Count b sep)%nat.
Proof.
  induction a as [|c a IH]; [reflexivity|].
  rewrite append_cons. cbn [Count]. rewrite IH. lia.
Qed.

Lemma digit_not (d c : ascii) :
  is_digit d = true -> is_digit c = false -> Ascii.eqb d c = false.
Proof.
  intros Hd Hc. destruct (Ascii.eqb d c) eqn:E; [|reflexivity].
  apply Ascii.eqb_eq in E. subst. congruence.
Qed.

Lemma digit_range (d : ascii) : is_digit d = true -> 0 <= code d - 48 <= 9.
Proof.
  unfold is_digit. intros H. apply andb_true_iff in H as [H1 H2].
  apply Z.leb_le in H1, H2. lia.
Qed.

(** Two digits parse as the number they write. *)
Lemma Atoi_two_digits (d1 d2 : ascii) :
  is_digit d1 = true -> is_digit d2 = true ->
  Atoi (String d1 (String d2 "")) = Some (10 * (code d1 - 48) + (code d2 - 48)).
Proof.
  intros H1 H2. unfold Atoi.
  rewrite (digit_not d1 "-" H1 eq_refl), (digit_not d1 "+" H1 eq_refl).
  cbn [digits_value]. rewrite H1, H2.
  pose proof (digit_range d1 H1). pose proof (digit_range d2 H2).
  replace (in_int _) with true; [f_equal; lia|].
  symmetry. apply in_int_spec. int_consts. lia.
Qed.

Lemma code_inj (c d : ascii) : code c = code d -> c = d.
Proof.
  unfold code. intros H. apply N2Z.inj in H.
  rewrite <- (ascii_N_embedding c), <- (ascii_N_embedding d). now rewrite H.
Qed.

(** X4.  For a purchase date of the form YYYY-MM-DD (two pieces without
    [-], then a day of two digits), the odd-day rule looks at the last digit
    only: it adds 6 points when that digit is odd and nothing otherwise. *)
Theorem odd_day_rule_last_digit (r : Receipt) (p : Z) (year month : string)
  (d1 d2 : ascii)
  (Hdate : PurchaseDate r
           = String.append year
               (String "-" (String.append month
                              (String "-" (String d1 (String d2 ""))))))
  (Hyear : Count year "-" = 0%nat) (Hmonth : Count month "-" = 0%nat)
  (Hd1 : is_digit d1 = true) (Hd2 : is_digit d2 = true) :
  odd_day_rule r p
  = Ok (if Z.odd (code d2 - 48) then int_add p ODD_DAY_BONUS else p).
Proof.
  unfold odd_day_rule. rewrite Hdate.
  rewrite (Split_append year _ "-" Hyear), (Split_append month _ "-" Hmonth).
  cbn [Split].
  rewrite (digit_not d1 "-" Hd1 eq_refl), (digit_not d2 "-" Hd2 eq_refl).
  cbn [index nth_error bind].
  rewrite (Atoi_two_digits d1 d2 Hd1 Hd2).
  pose proof (digit_range d1 Hd1). pose proof (digit_range d2 Hd2).
  rewrite rem2_odd by lia.
  replace (10 * (code d1 - 48) + (code d2 - 48))
    with ((code d2 - 48) + 2 * (5 * (code d1 - 48))) by lia.
  rewrite Z.odd_add_mul_2. destruct (Z.odd _); reflexivity.
Qed.

(** X5.  For a purchase time that starts with two digits and a colon, the
    afternoon rule adds 10 points exactly when the two digits are 14 or 15:
    14:00 earns them, 16:00 and 13:59 do not; the minutes play no role. *)
Theorem afternoon_rule_two_digits (r : Receipt) (p : Z) (h1 h2 : ascii)
  (minutes : string)
  (Htime : PurchaseTime r = String h1 (String h2 (String ":" minutes)))
  (Hh1 : is_digit h1 = true) (Hh2 : is_digit h2 = true) :
  afternoon_rule r p
  = Ok (if Ascii.eqb h1 "1" && (Ascii.eqb h2 "4" || Ascii.eqb h2 "5")
        then int_add p BETWEEN_2PM_AND_4PM_BONUS else p).
Proof.
  rewrite afternoon_rule_eq, Htime. cbn [before].
  rewrite (digit_not h1 ":" Hh1 eq_refl), (digit_not h2 ":" Hh2 eq_refl).
  rewrite Ascii.eqb_refl, (Atoi_two_digits h1 h2 Hh1 Hh2).
  pose proof (digit_range h1 Hh1) as R1. pose proof (digit_range h2 Hh2) as R2.
  f_equal.
  destruct (Ascii.eqb h1 "1" && (Ascii.eqb h2 "4" || Ascii.eqb h2 "5")) eqn:E.
  - apply andb_true_iff in E as [E1 E2]. apply Ascii.eqb_eq in E1. subst h1.
    apply orb_true_iff in E2 as [E2|E2]; apply Ascii.eqb_eq in E2; subst h2;
      reflexivity.
  - destruct ((14 <=? _) && (_ <? 16)) eqn:E'; [exfalso|reflexivity].
    apply andb_true_iff in E' as [L U].
    apply Z.leb_le in L. apply Z.ltb_lt in U.
    assert (H1 : h1 = "1"%char)
      by (apply code_inj; change (code "1"%char) with 49; lia).
    assert (H2 : h2 = "4"%char \/ h2 = "5"%char).
    { assert (code h2 = 52 \/ code h2 = 53) as [C|C] by lia;
        [left|right]; apply code_inj; exact C. }
    subst h1. destruct H2; subst h2; discriminate E.
Qed.

(** The sign of a float64 plays no role in [math.Mod(x, y) == 0]. *)
Lemma Mod_opp_eqb_zero (x y : spec_float) :
  Float64.eqb (Mod (SFopp x) y) Float64.zero
  = Float64.eqb (Mod x y) Float64.zero.
Proof.
  destruct x as [s|s| |s m e], y as [t|t| |t n f]; cbn [SFopp Mod];
    try reflexivity; try (destruct s; reflexivity).
  unfold Float64.exact.
  destruct (_ mod _) as [|q|q]; try (destruct s; reflexivity).
  destruct (shl_align _ _ _) as [m' e']. destruct s; reflexivity.
Qed.

(** X6.  The two rules on the total do not look at its sign: a total and its
    negation earn the same bonuses (so -9.00 earns 75 points as 9.00 does). *)
Theorem total_sign_irrelevant (r r' : Receipt) (p : Z) (total : spec_float)
  (Htotal : ParseFloat (Total r) = Some total)
  (Htotal' : ParseFloat (Total r') = Some (SFopp total)) :
  round_dollar_rule r' p = round_dollar_rule r p
  /\ quarter_rule r' p = quarter_rule r p.
Proof.
  unfold round_dollar_rule, quarter_rule.
  rewrite Htotal, Htotal', !Mod_opp_eqb_zero. split; reflexivity.
Qed.

Lemma ReplaceAllString_append (a b : string) :
  Regexp.ReplaceAllString_non_alnum (String.append a b)
  = String.append (Regexp.ReplaceAllString_non_alnum a)
      (Regexp.ReplaceAllString_non_alnum b).
Proof.
  induction a as [|c a IH]; [reflexivity|].
  rewrite append_cons. cbn [Regexp.ReplaceAllString_non_alnum].
  destruct (Regexp.is_alnum c); [rewrite append_cons|]; now rewrite IH.
Qed.

Lemma length_append (a b : string) :
  String.length (String.append a b) = (String.length a + String.length b)%nat.
Proof.
  induction a as [|c a IH]; [reflexivity|].
  rewrite append_cons. cbn [String.length]. now rewrite IH.
Qed.

(** X7.  A character of the retailer name that is not an ASCII letter or
    digit (a space, punctuation, any byte of a character outside ASCII) is
    worth nothing, wherever it stands: the retailer rule gives the same
    points with and without it; an ASCII letter or digit is worth exactly one
    more point. *)
Theorem retailer_rule_character (r r' : Receipt) (a b : string) (c : ascii)
  (Hr : Retailer r = String.append a (String c b))
  (Hr' : Retailer r' = String.append a b) :
  (Regexp.is_alnum c = false -> forall p, retailer_rule r p = retailer_rule r' p)
  /\ (Regexp.is_alnum c = true -> retailer_points r = retailer_points r' + 1).
Proof.
  unfold retailer_rule, retailer_points, len.
  rewrite Hr, Hr', !ReplaceAllString_append.
  cbn [Regexp.ReplaceAllString_non_alnum]. split; intros Hc; rewrite Hc.
  - reflexivity.
  - rewrite !length_append. cbn [String.length]. lia.
Qed.

End FieldForms.

(** ** The map of receipts over a run of the server *)

Section StoreFacts.

Import Binding.

Variable conv : spec_float -> Z.

Lemma required_string_spec (s : string) : required_string s = true <-> s <> "".
Proof.
  unfold required_string. rewrite negb_true_iff. split.
  - intros H ->. discriminate H.
  - intros H. destruct (String.eqb s "") eqn:E; [|reflexivity].
    apply String.eqb_eq in E. contradiction.
Qed.

(** What binds has its four string fields filled in. *)
Lemma bound_required_fields (request_body : option json) (r : Receipt) :
  ShouldBindJSON request_body = Some r -> required_fields r.
Proof.
  unfold ShouldBindJSON. destruct request_body as [v|]; [|discriminate].
  destruct (decode v) as [rv|]; [|discriminate].
  destruct (validate rv) eqn:Hv; [|discriminate].
  intros H. injection H as <-. unfold validate in Hv.
  repeat (apply andb_true_iff in Hv as [Hv ?]).
  unfold required_fields. cbn [Retailer PurchaseDate PurchaseTime Total].
  repeat split; now apply required_string_spec.
Qed.

Lemma serve_required_fields (req : request) (receipts : gmap string Receipt) :
  map_Forall (fun _ r => required_fields r) receipts ->
  map_Forall (fun _ r => required_fields r) (snd (serve conv req receipts)).
Proof.
  intros Hinv. destruct req as [request_body xid|id]; cbn [serve].
  - unfold processReceipts.
    destruct (ShouldBindJSON request_body) as [r|] eqn:Hbind; [|exact Hinv].
    cbn [snd]. apply map_Forall_insert_2; [|exact Hinv].
    exact (bound_required_fields _ _ Hbind).
  - now rewrite getPoints_reads.
Qed.

(** X8.  Every receipt in the map, after any sequence of requests served
    from the empty map, has a retailer, a purchase date, a purchase time and
    a total that are not empty. *)
Theorem stored_receipts_required_fields (reqs : list request) (id : string)
  (r : Receipt)
  (Hid : serve_all conv reqs ∅ !! id = Some r) :
  required_fields r.
Proof.
  assert (Hinv : forall receipts : gmap string Receipt,
             map_Forall (fun _ r => required_fields r) receipts ->
             map_Forall (fun _ r => required_fields r) (serve_all conv reqs receipts)).
  { clear Hid. induction reqs as [|req rest IH]; intros receipts Hr; [exact Hr|].
    cbn [serve_all]. apply IH. apply serve_required_fields. exact Hr. }
  exact (Hinv ∅ (map_Forall_empty _) id r Hid).
Qed.

Lemma serve_all_app (reqs reqs' : list request) (receipts : gmap string Receipt) :
  serve_all conv (reqs ++ reqs') receipts
  = serve_all conv reqs' (serve_all conv reqs receipts).
Proof.
  revert receipts. induction reqs as [|req rest IH]; intros receipts.
  - reflexivity.
  - simpl. apply IH.
Qed.

(** X9.  The map holds exactly the ids of the accepted submissions: an id
    resolves after a run of the server from the empty map if and only if
    some POST of the run generated it with a body that binds. *)
Theorem stored_ids_are_accepted (reqs : list request) (id : string) :
  is_Some (serve_all conv reqs ∅ !! id)
  <-> exists request_body,
        In (POST_receipts_process request_body id) reqs
        /\ is_Some (ShouldBindJSON request_body).
Proof.
  assert (Hgen : forall receipts : gmap string Receipt,
             is_Some (serve_all conv reqs receipts !! id)
             <-> is_Some (receipts !! id)
                 \/ exists request_body,
                      In (POST_receipts_process request_body id) reqs
                      /\ is_Some (ShouldBindJSON request_body)).
  { induction reqs as [|req rest IH]; intros receipts.
    - simpl. split; [now left|]. intros [H|(b & [] & _)]. exact H.
    - cbn [serve_all]. rewrite IH. destruct req as [request_body xid|id'].
      + cbn [serve]. unfold processReceipts.
        destruct (ShouldBindJSON request_body) as [r|] eqn:Hbind; cbn [snd].
        * destruct (decide (xid = id)) as [->|Hne].
          -- rewrite lookup_insert_eq. split.
             ++ intros _. right. exists request_body. split; [now left|].
                rewrite Hbind. now exists r.
             ++ intros _. left. now exists r.
          -- rewrite lookup_insert_ne by exact Hne. split.
             ++ intros [H|(b & Hin & Hb)]; [now left|].
                right. exists b. split; [now right|exact Hb].
             ++ intros [H|(b & [Heq|Hin] & Hb)]; [now left| |].
                ** injection Heq as -> ->. contradiction.
                ** right. now exists b.
        * split.
          -- intros [H|(b & Hin & Hb)]; [now left|].
             right. exists b. split; [now right|exact Hb].
          -- intros [H|(b & [Heq|Hin] & Hb)]; [now left| |].
             ++ injection Heq as -> ->. rewrite Hbind in Hb.
                destruct Hb as [? Hb]. discriminate Hb.
             ++ right. now exists b.
      + cbn [serve]. rewrite getPoints_reads. split.
        * intros [H|(b & Hin & Hb)]; [now left|].
          right. exists b. split; [now right|exact Hb].
        * intros [H|(b & [Heq|Hin] & Hb)]; [now left|discriminate Heq|].
          right. now exists b. }
  rewrite Hgen. rewrite lookup_empty. split.
  - intros [[? H]|H]; [discriminate H|exact H].
  - intros H. now right.
Qed.

(** X10.  An id generated twice is stored once: the second accepted
    submission replaces the receipt of the first, and nothing of the first
    is left in the map. *)
Theorem collision_replaces (body1 body2 : option json) (id : string)
  (receipts : gmap string Receipt) (r2 : Receipt)
  (Hbind : ShouldBindJSON body2 = Some r2) :
  snd (processReceipts body2 id (snd (processReceipts body1 id receipts)))
  = snd (processReceipts body2 id receipts)
  /\ snd (processReceipts body2 id (snd (processReceipts body1 id receipts))) !! id
     = Some r2.
Proof.
  unfold processReceipts. rewrite Hbind.
  destruct (ShouldBindJSON body1) as [r1|]; cbn [snd].
  - rewrite insert_insert_eq. split; [reflexivity|apply lookup_insert_eq].
  - split; [reflexivity|apply lookup_insert_eq].
Qed.

(** X11.  get-points only reads: after any number of GET requests the map
    is what it was, so asking again for an id gives the same answer. *)
Theorem get_requests_read_only (reqs : list request) (id : string)
  (receipts : gmap string Receipt)
  (Hget : generated reqs = []) :
  serve_all conv reqs receipts = receipts
  /\ getPoints conv id (serve_all conv reqs receipts) = getPoints conv id receipts.
Proof.
  assert (H : serve_all conv reqs receipts = receipts).
  { revert receipts. induction reqs as [|req rest IH]; intros receipts;
      [reflexivity|].
    destruct req as [request_body xid|id']; [discriminate Hget|].
    cbn [serve_all serve]. rewrite getPoints_reads. apply IH. exact Hget. }
  split; [exact H|now rewrite H].
Qed.

(** X12.  A stored receipt stays: once a submission is accepted under an
    id, the id resolves to that receipt after any further requests that do
    not generate the same id again, and get-points answers with status 200
    and its score whenever the scoring runs to its end (never with "No
    receipt found"). *)
Theorem stored_receipt_stays (request_body : option json) (id : string)
  (receipts : gmap string Receipt) (r : Receipt) (reqs : list request)
  (Hbind : ShouldBindJSON request_body = Some r)
  (Hfresh : ~ In id (generated reqs)) :
  serve_all conv (POST_receipts_process request_body id :: reqs) receipts !! id
  = Some r
  /\ forall points,
       score conv r = Ok points ->
       getPoints conv id
         (serve_all conv (POST_receipts_process request_body id :: reqs) receipts)
       = (Ok {| status := 200; payload := Points points |},
          serve_all conv (POST_receipts_process request_body id :: reqs) receipts).
Proof.
  assert (H : serve_all conv (POST_receipts_process request_body id :: reqs)
                receipts !! id = Some r).
  { cbn [serve_all serve]. rewrite serve_all_other_id by exact Hfresh.
    unfold processReceipts. rewrite Hbind. apply lookup_insert_eq. }
  split; [exact H|].
  intros points Hscore. unfold getPoints. rewrite H, Hscore. reflexivity.
Qed.

End StoreFacts.

(** ** The binding of well-formed bodies *)

Section BindingFacts.

Import Binding.




(** Keys are compared after folding. *)
Lemma names_eqb_fold (key name : string) :
  names key name = String.eqb (foldName key) (foldName name).
Proof.
  unfold names. destruct (String.eqb key name) eqn:E; [|reflexivity].
  apply String.eqb_eq in E. subst. symmetry. apply String.eqb_refl.
Qed.

Lemma decode_members_key (members members' : list (string * json))
  (key key' : string) (v : json) :
  foldName key' = foldName key ->
  forall r, decode_members (members ++ (key', v) :: members') r
            = decode_members (members ++ (key, v) :: members') r.
Proof.
  intros Hfold. induction members as [|[k w] rest IH]; intros r.
  - cbn [app decode_members]. rewrite !(names_eqb_fold key'), Hfold,
      <- !(names_eqb_fold key). reflexivity.
  - cbn [app decode_members].
    repeat match goal with
    | |- context [if names k ?n then _ else _] => destruct (names k n)
    | |- context [match decode_string ?a ?b with _ => _ end] =>
        destruct (decode_string a b)
    | |- context [match decode_items ?a ?b with _ => _ end] =>
        destruct (decode_items a b)
    end; auto.
Qed.

(** X14.  The keys of the body are matched without regard to case: a key
    replaced by another with the same folding (RETAILER or Retailer for
    retailer) gives the same binding. *)
Theorem keys_fold (members members' : list (string * json))
  (key key' : string) (v : json)
  (Hfold : foldName key' = foldName key) :
  ShouldBindJSON (Some (JObject (members ++ (key', v) :: members')))
  = ShouldBindJSON (Some (JObject (members ++ (key, v) :: members'))).
Proof.
  unfold ShouldBindJSON, decode.
  now rewrite (decode_members_key members members' key key' v Hfold).
Qed.

Lemma decode_members_skip (members members' : list (string * json))
  (key : string) (v : json) :
  (forall f, names key (field_name f) = false) ->
  forall r, decode_members (members ++ (key, v) :: members') r
            = decode_members (members ++ members') r.
Proof.
  intros Hno. induction members as [|[k w] rest IH]; intros r.
  - cbn [app decode_members].
    pose proof (Hno FRetailer) as H1. pose proof (Hno FPurchaseDate) as H2.
    pose proof (Hno FPurchaseTime) as H3. pose proof (Hno FTotal) as H4.
    pose proof (Hno FItems) as H5. simpl in H1, H2, H3, H4, H5.
    now rewrite H1, H2, H3, H4, H5.
  - cbn [app decode_members].
    repeat match goal with
    | |- context [if names k ?n then _ else _] => destruct (names k n)
    | |- context [match decode_string ?a ?b with _ => _ end] =>
        destruct (decode_string a b)
    | |- context [match decode_items ?a ?b with _ => _ end] =>
        destruct (decode_items a b)
    end; auto.
Qed.

(** X15.  A member of the body whose key names none of the five fields is
    ignored, whatever its value and its place: the body binds as it does
    without it. *)
Theorem unknown_key_ignored (members members' : list (string * json))
  (key : string) (v : json)
  (Hkey : forall f, names key (field_name f) = false) :
  ShouldBindJSON (Some (JObject (members ++ (key, v) :: members')))
  = ShouldBindJSON (Some (JObject (members ++ members'))).
Proof.
  unfold ShouldBindJSON, decode.
  now rewrite (decode_members_skip members members' key v Hkey).
Qed.

End BindingFacts.

(** ** White space around a description *)

Section TrimFacts.

Import GoStrings.

Variable conv : spec_float -> Z.

Lemma plain_range (c : ascii) : plain c = true -> 33 <= code c <= 126.
Proof.
  unfold plain. intros H. apply andb_true_iff in H as [H1 H2].
  apply Z.leb_le in H1, H2. lia.
Qed.

Ltac decide_byte b :=
  repeat match goal with
  | |- context [b =? ?k] => rewrite (proj2 (Z.eqb_neq b k)) by lia
  | |- context [?k <=? b] =>
      first [ rewrite (proj2 (Z.leb_gt k b)) by lia
            | rewrite (proj2 (Z.leb_le k b)) by lia ]
  | |- context [b <=? ?k] =>
      first [ rewrite (proj2 (Z.leb_gt b k)) by lia
            | rewrite (proj2 (Z.leb_le b k)) by lia ]
  end.

Lemma space_prefix_plain (c : ascii) (rest : string) :
  plain c = true -> space_prefix (String c rest) = None.
Proof.
  intros Hc. apply plain_range in Hc. unfold space_prefix.
  set (b := code c) in *. decide_byte b. cbn [andb orb].
  destruct rest as [|c1 [|c2 rest2]]; reflexivity.
Qed.

Lemma space_suffix_rev_plain (c : ascii) (rest : string) :
  plain c = true -> space_suffix_rev (String c rest) = None.
Proof.
  intros Hc. apply plain_range in Hc. unfold space_suffix_rev.
  set (b := code c) in *. decide_byte b. cbn [andb orb].
  destruct rest as [|c1 [|c2 rest2]]; try reflexivity;
    rewrite ?andb_false_r; reflexivity.
Qed.

Lemma spaces_S (n : nat) : spaces (S n) = String " " (spaces n).
Proof. reflexivity. Qed.

Lemma length_spaces_n (n : nat) : String.length (spaces n) = n.
Proof. apply length_spaces. Qed.

Lemma trim_left_padding (n fuel : nat) (c : ascii) (rest : string) :
  (n <= fuel)%nat -> plain c = true ->
  trim_left fuel (String.append (spaces n) (String c rest)) = String c rest.
Proof.
  intros Hle Hc. revert fuel Hle. induction n as [|n IH]; intros fuel Hle.
  - change (String.append (spaces 0) (String c rest)) with (String c rest).
    destruct fuel; [reflexivity|]. cbn [trim_left].
    now rewrite space_prefix_plain.
  - destruct fuel as [|fuel]; [lia|].
    rewrite spaces_S, append_cons. cbn [trim_left].
    change (space_prefix (String " " ?t)) with (Some t).
    apply IH. lia.
Qed.

Lemma trim_left_rev_padding (n fuel : nat) (c : ascii) (rest : string) :
  (n <= fuel)%nat -> plain c = true ->
  trim_left_rev fuel (String.append (spaces n) (String c rest)) = String c rest.
Proof.
  intros Hle Hc. revert fuel Hle. induction n as [|n IH]; intros fuel Hle.
  - change (String.append (spaces 0) (String c rest)) with (String c rest).
    destruct fuel; [reflexivity|]. cbn [trim_left_rev].
    now rewrite space_suffix_rev_plain.
  - destruct fuel as [|fuel]; [lia|].
    rewrite spaces_S, append_cons. cbn [trim_left_rev].
    change (space_suffix_rev (String " " ?t)) with (Some t).
    apply IH. lia.
Qed.

Lemma list_of_append (a b : string) :
  list_ascii_of_string (String.append a b)
  = (list_ascii_of_string a ++ list_ascii_of_string b)%list.
Proof.
  induction a as [|c a IH]; [reflexivity|].
  rewrite append_cons. cbn [list_ascii_of_string]. now rewrite IH.
Qed.

Lemma string_of_app (l1 l2 : list ascii) :
  string_of_list_ascii (l1 ++ l2)%list
  = String.append (string_of_list_ascii l1) (string_of_list_ascii l2).
Proof.
  induction l1 as [|c l1 IH]; [reflexivity|].
  change ((c :: l1) ++ l2)%list with (c :: (l1 ++ l2)%list).
  cbn [string_of_list_ascii]. now rewrite IH, append_cons.
Qed.

Lemma rev_string_append (a b : string) :
  rev_string (String.append a b) = String.append (rev_string b) (rev_string a).
Proof.
  unfold rev_string. now rewrite list_of_append, rev_app_distr, string_of_app.
Qed.

Lemma rev_string_involutive (s : string) : rev_string (rev_string s) = s.
Proof.
  unfold rev_string.
  now rewrite list_ascii_of_string_of_list_ascii, rev_involutive,
    string_of_list_ascii_of_string.
Qed.

Lemma rev_repeat_same (c : ascii) (n : nat) : rev (repeat c n) = repeat c n.
Proof.
  induction n as [|n IH]; [reflexivity|].
  cbn [repeat rev]. rewrite IH. symmetry. apply repeat_cons.
Qed.

Lemma rev_string_spaces (n : nat) : rev_string (spaces n) = spaces n.
Proof.
  unfold rev_string, spaces.
  now rewrite list_ascii_of_string_of_list_ascii, rev_repeat_same.
Qed.

Lemma append_nil_r (s : string) : String.append s "" = s.
Proof.
  induction s as [|c s IH]; [reflexivity|]. now rewrite append_cons, IH.
Qed.

(** White space around a text that starts and ends with a plain character
    is all that [TrimSpace] removes. *)
Lemma TrimSpace_padding (n m : nat) (d init rest : string) (c0 c : ascii) :
  d = String c0 rest -> d = String.append init (String c "") ->
  plain c0 = true -> plain c = true ->
  TrimSpace (String.append (spaces n) (String.append d (spaces m))) = d.
Proof.
  intros Hfirst Hlast Hc0 Hc. unfold TrimSpace.
  assert (Hleft : TrimLeft (String.append (spaces n) (String.append d (spaces m)))
                  = String.append d (spaces m)).
  { unfold TrimLeft. rewrite Hfirst, append_cons.
    apply trim_left_padding; [|exact Hc0].
    rewrite length_append, length_spaces_n. lia. }
  rewrite Hleft. unfold TrimRight.
  rewrite rev_string_append, rev_string_spaces.
  rewrite Hlast at 2. rewrite rev_string_append.
  change (rev_string (String c "")) with (String c "").
  rewrite append_cons. change (String.append "" ?t) with t.
  rewrite trim_left_rev_padding; [|rewrite length_append, length_spaces_n; lia|exact Hc].
  change (String c (rev_string init))
    with (String.append (String c "") (rev_string init)).
  rewrite rev_string_append, rev_string_involutive.
  change (rev_string (String c "")) with (String c "").
  now symmetry.
Qed.

(** X16.  Spaces before and after a description do not change the points
    of the item: a description that starts and ends with a printable ASCII
    character scores the same with any number of spaces around it, because
    only its trimmed length counts. *)
Theorem description_padding (n m : nat) (d init rest price : string)
  (c0 c : ascii) (p : Z)
  (Hfirst : d = String c0 rest)
  (Hlast : d = String.append init (String c ""))
  (Hc0 : plain c0 = true) (Hc : plain c = true) :
  TrimSpace (String.append (spaces n) (String.append d (spaces m))) = d
  /\ item_rule conv
       (Some {| ShortDescription := String.append (spaces n) (String.append d (spaces m));
                Price := price |}) p
     = item_rule conv (Some {| ShortDescription := d; Price := price |}) p.
Proof.
  pose proof (TrimSpace_padding n m d init rest c0 c Hfirst Hlast Hc0 Hc) as Hpad.
  pose proof (TrimSpace_padding 0 0 d init rest c0 c Hfirst Hlast Hc0 Hc) as Hd.
  change (String.append (spaces 0) ?t) with t in Hd.
  change (spaces 0) with "" in Hd. rewrite append_nil_r in Hd.
  split; [exact Hpad|].
  unfold item_rule. cbn [ShortDescription Price]. now rewrite Hpad, Hd.
Qed.

End TrimFacts.

(** ** Totals that are whole numbers *)

Section WholeTotals.

Import GoStrings Strconv GoMath.

Lemma digits2_pos_bounds (p : positive) :
  2 ^ (Zpos (digits2_pos p) - 1) <= Zpos p < 2 ^ Zpos (digits2_pos p).
Proof.
  induction p as [p IH|p IH|]; cbn [digits2_pos].
  - rewrite Pos2Z.inj_succ.
    replace (Z.succ (Zpos (digits2_pos p)) - 1) with (Z.succ (Zpos (digits2_pos p) - 1))
      by lia.
    rewrite !Z.pow_succ_r by lia. lia.
  - rewrite Pos2Z.inj_succ.
    replace (Z.succ (Zpos (digits2_pos p)) - 1) with (Z.succ (Zpos (digits2_pos p) - 1))
      by lia.
    rewrite !Z.pow_succ_r by lia. lia.
  - simpl. lia.
Qed.

Lemma digits2_pos_le (p : positive) (k : Z) :
  0 <= k -> Zpos p < 2 ^ k -> Zpos (digits2_pos p) <= k.
Proof.
  intros Hk Hp. pose proof (digits2_pos_bounds p) as [Hlo _].
  destruct (Z.le_gt_cases (Zpos (digits2_pos p)) k) as [|Hgt]; [assumption|].
  exfalso.
  assert (2 ^ k <= 2 ^ (Zpos (digits2_pos p) - 1))
    by (apply Z.pow_le_mono_r; lia).
  lia.
Qed.

Lemma digits2_pos_iter_xO (p d : positive) :
  digits2_pos (Pos.iter xO p d) = (digits2_pos p + d)%positive.
Proof.
  induction d as [|d IH] using Pos.peano_ind.
  - simpl. lia.
  - rewrite Pos.iter_succ. cbn [digits2_pos]. rewrite IH. lia.
Qed.

(** Rounding leaves a canonical float64 as it is. *)
Lemma binary_round_aux_canonical (s : bool) (m : positive) (e : Z) :
  fexp Float64.prec Float64.emax (Zpos (digits2_pos m) + e) = e ->
  e <= Float64.emax - Float64.prec ->
  binary_round_aux Float64.prec Float64.emax s (Zpos m) e loc_Exact
  = S754_finite s m e.
Proof.
  intros Hcan He. unfold binary_round_aux, shr_fexp.
  cbn [Zdigits2 shr_record_of_loc]. rewrite Hcan, Z.sub_diag.
  cbn [shr shr_m loc_of_shr_record round_nearest_even Zdigits2 shr_record_of_loc].
  rewrite Hcan, Z.sub_diag. cbn [shr shr_m].
  apply Z.leb_le in He. now rewrite He.
Qed.

(** A positive integer below 2^53 is a float64, and [math.Mod] of it by 1
    is zero. *)
Lemma whole_float_Mod_one (m : positive) :
  Zpos m < 2 ^ 53 ->
  exists m' e',
    Float64.of_Z_exp (Zpos m) 0 = S754_finite false m' e'
    /\ Float64.eqb (Mod (S754_finite false m' e') Float64.one) Float64.zero = true.
Proof.
  intros Hm.
  pose proof (digits2_pos_le m 53 ltac:(lia) Hm) as Hd.
  assert (Hd1 : 1 <= Zpos (digits2_pos m)) by lia.
  unfold Float64.of_Z_exp, binary_normalize, binary_round.
  assert (Hfexp : fexp Float64.prec Float64.emax (Zpos (digits2_pos m) + 0)
                  = Zpos (digits2_pos m) - 53).
  { unfold fexp, emin, Float64.prec, Float64.emax. lia. }
  rewrite Hfexp. unfold shl_align.
  destruct (Zpos (digits2_pos m) - 53 - 0) as [|k|k] eqn:Ek; [|lia|].
  - (* 53 digits: no shift *)
    rewrite binary_round_aux_canonical;
      [|rewrite Hfexp; lia|unfold Float64.emax, Float64.prec; lia].
    exists m, 0. split; [reflexivity|].
    unfold Mod, Float64.one. change (Z.min 0 (-52)) with (-52).
    replace ((Zpos m * 2 ^ (0 - -52)) mod (4503599627370496 * 2 ^ (-52 - -52)))
      with 0; [reflexivity|].
    symmetry. change (4503599627370496 * 2 ^ (-52 - -52)) with (2 ^ 52).
    change (0 - -52) with 52. apply Z_mod_mult.
  - (* fewer digits: the mantissa is shifted left by k *)
    assert (Hk : Zpos k = 53 - Zpos (digits2_pos m)) by lia.
    rewrite binary_round_aux_canonical.
    + eexists _, _. split; [reflexivity|].
      unfold Mod, Float64.one.
      assert (Hmin : Z.min (Zpos (digits2_pos m) - 53) (-52) = -52) by lia.
      rewrite Hmin. rewrite iter_xO.
      replace ((Zpos m * 2 ^ Zpos k * 2 ^ (Zpos (digits2_pos m) - 53 - -52))
                 mod (4503599627370496 * 2 ^ (-52 - -52))) with 0; [reflexivity|].
      symmetry. change (4503599627370496 * 2 ^ (-52 - -52)) with (2 ^ 52).
      rewrite <- Z.mul_assoc, <- Z.pow_add_r by lia.
      replace (Zpos k + (Zpos (digits2_pos m) - 53 - -52)) with 52 by lia.
      apply Z_mod_mult.
    + rewrite digits2_pos_iter_xO. unfold fexp, emin, Float64.prec, Float64.emax.
      rewrite Pos2Z.inj_add. lia.
    + unfold Float64.emax, Float64.prec. lia.
Qed.

Lemma lower_digit (x : ascii) : is_digit x = true -> (lower x =? 120) = false.
Proof.
  intros Hx. pose proof (digit_range x Hx) as R. unfold lower.
  apply Z.eqb_neq.
  assert (code x = 48 \/ code x = 49 \/ code x = 50 \/ code x = 51 \/ code x = 52
          \/ code x = 53 \/ code x = 54 \/ code x = 55 \/ code x = 56 \/ code x = 57)
    as H by lia.
  repeat (destruct H as [H|H]; [rewrite H; discriminate|]).
  rewrite H. discriminate.
Qed.

(** The digit loop on a text of digits reads all of it. *)
Lemma read_digits_all (s : string) (st : digits_state) :
  all_digits s = true -> sawdot st = false -> 0 <= mantissa st ->
  exists st',
    read_digits false s st = (st', "")
    /\ sawdot st' = false /\ underscores st' = underscores st
    /\ (sawdigits st = true \/ s <> "" -> sawdigits st' = true)
    /\ 0 <= mantissa st' < (mantissa st + 1) * 10 ^ len s.
Proof.
  revert st. induction s as [|c rest IH]; intros st Hall Hdot Hm.
  - exists st. cbn [read_digits]. repeat split; try assumption.
    + intros [H|H]; [exact H|contradiction].
    + change (len "") with 0. lia.
  - cbn [all_digits] in Hall. apply andb_true_iff in Hall as [Hc Hall].
    pose proof (digit_range c Hc) as Rc.
    assert (Hlen : len (String c rest) = len rest + 1)
      by (unfold len; cbn [String.length]; lia).
    assert (Hpow : 10 ^ (len rest + 1) = 10 * 10 ^ len rest)
      by (rewrite Z.pow_add_r by (unfold len; lia); lia).
    assert (Hpos : 0 < 10 ^ len rest)
      by (apply Z.pow_pos_nonneg; unfold len; lia).
    cbn [read_digits].
    rewrite (digit_not c "_" Hc eq_refl), (digit_not c "." Hc eq_refl), Hc.
    destruct (Ascii.eqb c "0" && (nd st =? 0)).
    + destruct (IH {| nd := nd st; dp := dp st - 1; mantissa := mantissa st;
                      sawdot := sawdot st; sawdigits := true;
                      underscores := underscores st |} Hall Hdot Hm)
        as (st' & Hrun & Hd & Hu & Hs & Hb).
      exists st'. cbn [mantissa sawdigits underscores] in *.
      repeat split; try assumption; try lia.
      * intros _. apply Hs. now left.
      * rewrite Hlen, Hpow. nia.
    + destruct (IH {| nd := nd st + 1; dp := dp st;
                      mantissa := mantissa st * 10 + (code c - 48);
                      sawdot := sawdot st; sawdigits := true;
                      underscores := underscores st |} Hall Hdot ltac:(cbn; lia))
        as (st' & Hrun & Hd & Hu & Hs & Hb).
      exists st'. cbn [mantissa sawdigits underscores] in *.
      repeat split; try assumption; try lia.
      * intros _. apply Hs. now left.
      * rewrite Hlen, Hpow. nia.
Qed.

(** A text of digits does not start a hexadecimal literal. *)
Lemma no_hex_prefix (s : string) :
  all_digits s = true ->
  match s with
  | String "0" (String x (String c rest)) =>
      if lower x =? 120 then (true, String c rest) else (false, s)
  | _ => (false, s)
  end = (false, s).
Proof.
  intros Hall. destruct s as [|c0 [|x [|c rest]]]; try reflexivity.
  - destruct c0 as [[] [] [] [] [] [] [] []]; reflexivity.
  - destruct c0 as [[] [] [] [] [] [] [] []]; reflexivity.
  - cbn [all_digits] in Hall. apply andb_true_iff in Hall as [_ Hall].
    apply andb_true_iff in Hall as [Hx _].
    destruct c0 as [[] [] [] [] [] [] [] []]; try reflexivity.
    now rewrite (lower_digit x Hx).
Qed.

Lemma readFloat_digits (s : string) :
  s <> "" -> all_digits s = true ->
  exists M,
    readFloat s = Some {| lit_neg := false; lit_mantissa := M; lit_exp := 0;
                          lit_hex := false; lit_rest := "" |}
    /\ 0 <= M < 10 ^ len s.
Proof.
  intros Hne Hall. destruct s as [|c0 rest0]; [contradiction|].
  assert (Hc0 : is_digit c0 = true)
    by (cbn [all_digits] in Hall; now apply andb_true_iff in Hall as [? _]).
  destruct (read_digits_all (String c0 rest0) digits_init Hall eq_refl ltac:(cbn; lia))
    as (st & Hrun & Hdot & Hus & Hsaw & Hb).
  exists (mantissa st). split; [|cbn [mantissa digits_init] in Hb; lia].
  unfold readFloat.
  rewrite (digit_not c0 "+" Hc0 eq_refl), (digit_not c0 "-" Hc0 eq_refl).
  cbv beta iota. rewrite (no_hex_prefix _ Hall). cbv beta iota.
  rewrite Hrun. cbv beta iota.
  rewrite Hsaw by (right; discriminate). rewrite Hdot, Hus.
  cbn [negb underscores digits_init andb].
  destruct (mantissa st =? 0); [reflexivity|]. now rewrite Z.sub_diag.
Qed.

Lemma special_digit (c : ascii) (rest : string) :
  is_digit c = true -> special (String c rest) = None.
Proof.
  intros Hc.
  destruct c as [[] [] [] [] [] [] [] []]; try discriminate Hc; reflexivity.
Qed.

(** A whole number of at most 15 digits parses to a float64 that [math.Mod]
    by 1 leaves no remainder of. *)
Lemma ParseFloat_whole (s : string) :
  s <> "" -> all_digits s = true -> (String.length s <= 15)%nat ->
  exists total,
    ParseFloat s = Some total
    /\ Float64.eqb (Mod total Float64.one) Float64.zero = true.
Proof.
  intros Hne Hall Hlen.
  destruct (readFloat_digits s Hne Hall) as (M & Hread & HM).
  assert (HM53 : M < 2 ^ 53).
  { assert (10 ^ len s <= 10 ^ 15)
      by (apply Z.pow_le_mono_r; unfold len; lia).
    assert (10 ^ 15 < 2 ^ 53) by reflexivity. lia. }
  unfold ParseFloat.
  destruct s as [|c0 rest0]; [contradiction|].
  rewrite special_digit
    by (cbn [all_digits] in Hall; now apply andb_true_iff in Hall as [? _]).
  rewrite Hread. cbn [lit_rest]. unfold round_literal.
  cbn [lit_mantissa lit_neg lit_hex lit_exp].
  destruct M as [|m|m]; [|..|lia].
  - exists (S754_zero false). split; reflexivity.
  - change (Zpos m * 10 ^ 0) with (Zpos m * 1). rewrite Z.mul_1_r.
    destruct (whole_float_Mod_one m HM53) as (m' & e' & -> & Hmod).
    exists (S754_finite false m' e'). split; [reflexivity|exact Hmod].
Qed.

(** X17.  A total written as a whole number (digits only, 15 at most, such
    as 9 or 100) earns both bonuses on the total: 50 points as a round
    amount and 25 more as a multiple of 0.25. *)
Theorem whole_total_bonus (r : Receipt) (p : Z)
  (Hne : Total r <> "")
  (Hdigits : all_digits (Total r) = true)
  (Hlen : (String.length (Total r) <= 15)%nat) :
  round_dollar_rule r p = int_add p ROUND_DOLLAR_AMOUNT_BONUS
  /\ quarter_rule r (round_dollar_rule r p)
     = int_add (int_add p ROUND_DOLLAR_AMOUNT_BONUS) MULTIPLE_OF_0_POINT_25_BONUS.
Proof.
  destruct (ParseFloat_whole _ Hne Hdigits Hlen) as (total & Htotal & Hround).
  pose proof (Mod_one_quarter total Hround) as Hquarter.
  unfold round_dollar_rule, quarter_rule.
  rewrite Htotal, Hround, Hquarter. split; reflexivity.
Qed.

End WholeTotals.



(** ** The further properties at concrete inputs *)

(** X2 at the receipt of scenario A: 28 = 6 + 10 + 0 + 0 + 6 + 0 + 6. *)
Lemma score_sum_of_rules_witness :
  28 = wrap (rules_sum int_indefinite scenario_A) /\ int_min <= 28 <= int_max.
Proof.
  assert (Hscore : score int_indefinite scenario_A = Ok 28)
    by (vm_compute; reflexivity).
  exact (score_sum_of_rules int_indefinite scenario_A 28 Hscore).
Defined.

(** X3 at a receipt with two items, in both orders. *)
Lemma score_items_order_witness :
  score int_indefinite (two_items_receipt pizza soda)
  = score int_indefinite (two_items_receipt soda pizza).
Proof.
  exact (score_items_order int_indefinite
           (two_items_receipt pizza soda) (two_items_receipt soda pizza)
           eq_refl eq_refl eq_refl eq_refl (perm_swap soda pizza [])).
Defined.

(** X4 at the date 2022-01-01: the last digit 1 is odd. *)
Lemma odd_day_rule_last_digit_witness :
  odd_day_rule (receipt_with "2022-01-01" "13:01" "1.10" []) 0
  = Ok (if Z.odd (code "1" - 48) then int_add 0 ODD_DAY_BONUS else 0).
Proof.
  exact (odd_day_rule_last_digit (receipt_with "2022-01-01" "13:01" "1.10" []) 0
           "2022" "01" "0" "1" eq_refl eq_refl eq_refl eq_refl eq_refl).
Defined.

(** X5 at the time 16:00: the end of the interval is excluded. *)
Lemma afternoon_rule_two_digits_witness :
  afternoon_rule (receipt_with "2022-01-02" "16:00" "1.10" []) 7 = Ok 7.
Proof.
  exact (afternoon_rule_two_digits (receipt_with "2022-01-02" "16:00" "1.10" []) 7
           "1" "6" "00" eq_refl eq_refl eq_refl).
Defined.

(** X6 at the totals 9.00 and -9.00. *)
Lemma total_sign_irrelevant_witness :
  round_dollar_rule (receipt_with "2022-01-02" "13:01" "-9.00" []) 0
  = round_dollar_rule (receipt_with "2022-01-02" "13:01" "9.00" []) 0
  /\ quarter_rule (receipt_with "2022-01-02" "13:01" "-9.00" []) 0
     = quarter_rule (receipt_with "2022-01-02" "13:01" "9.00" []) 0.
Proof.
  assert (H : Strconv.ParseFloat (Total (receipt_with "2022-01-02" "13:01" "9.00" []))
              = Some (S754_finite false 5066549580791808 (-49)))
    by (vm_compute; reflexivity).
  assert (H' : Strconv.ParseFloat (Total (receipt_with "2022-01-02" "13:01" "-9.00" []))
               = Some (SFopp (S754_finite false 5066549580791808 (-49))))
    by (vm_compute; reflexivity).
  exact (total_sign_irrelevant _ _ 0 _ H H').
Defined.

(** X7 at the retailer M&M: the ampersand is worth nothing. *)
Lemma retailer_rule_character_witness :
  retailer_rule {| Retailer := "M&M"; PurchaseDate := "2022-01-02";
                   PurchaseTime := "13:01"; Total := "1.10"; Items := [] |} 0
  = retailer_rule {| Retailer := "MM"; PurchaseDate := "2022-01-02";
                     PurchaseTime := "13:01"; Total := "1.10"; Items := [] |} 0.
Proof.
  exact (proj1 (retailer_rule_character
                  {| Retailer := "M&M"; PurchaseDate := "2022-01-02";
                     PurchaseTime := "13:01"; Total := "1.10"; Items := [] |}
                  {| Retailer := "MM"; PurchaseDate := "2022-01-02";
                     PurchaseTime := "13:01"; Total := "1.10"; Items := [] |}
                  "M" "M" "&" eq_refl eq_refl) eq_refl 0).
Defined.

(** X8 after the submission of the receipt of scenario A. *)
Lemma stored_receipts_required_fields_witness : required_fields scenario_A.
Proof.
  apply (stored_receipts_required_fields int_indefinite
           [POST_receipts_process (Some (receipt_json scenario_A)) "id"] "id").
  vm_compute. reflexivity.
Defined.

(** X10 at two submissions that generate the same id. *)
Lemma collision_replaces_witness :
  snd (processReceipts (Some (receipt_json (two_items_receipt pizza soda))) "id"
         (snd (processReceipts (Some (receipt_json scenario_A)) "id" ∅))) !! "id"
  = Some (two_items_receipt pizza soda).
Proof.
  apply (collision_replaces (Some (receipt_json scenario_A))
           (Some (receipt_json (two_items_receipt pizza soda))) "id" ∅).
  vm_compute. reflexivity.
Defined.

(** X11 at two GET requests on a map with one receipt. *)
Lemma get_requests_read_only_witness :
  getPoints int_indefinite "id"
    (serve_all int_indefinite [GET_receipts_points "id"; GET_receipts_points "no"]
       (<["id" := scenario_A]> ∅))
  = getPoints int_indefinite "id" (<["id" := scenario_A]> ∅).
Proof.
  exact (proj2 (get_requests_read_only int_indefinite
                  [GET_receipts_points "id"; GET_receipts_points "no"] "id"
                  (<["id" := scenario_A]> ∅) eq_refl)).
Defined.

(** X12 at the receipt of scenario A, followed by a GET and by a rejected
    submission under another id. *)
Lemma stored_receipt_stays_witness :
  serve_all int_indefinite
    [POST_receipts_process (Some (receipt_json scenario_A)) "id";
     GET_receipts_points "id"; POST_receipts_process None "other"] ∅ !! "id"
  = Some scenario_A.
Proof.
  refine (proj1 (stored_receipt_stays int_indefinite
                   (Some (receipt_json scenario_A)) "id" ∅ scenario_A
                   [GET_receipts_points "id"; POST_receipts_process None "other"]
                   _ _)).
  - vm_compute. reflexivity.
  - simpl. intros [H|[]]. discriminate H.
Defined.

(** X14 at the key RETAILER. *)
Lemma keys_fold_witness :
  Binding.ShouldBindJSON
    (Some (JObject ([] ++ ("RETAILER", JString "T") :: [("items", JArray [])])))
  = Binding.ShouldBindJSON
      (Some (JObject ([] ++ ("retailer", JString "T") :: [("items", JArray [])]))).
Proof.
  apply keys_fold. vm_compute. reflexivity.
Defined.

(** X15 at a body with one more member, under the key store. *)
Lemma unknown_key_ignored_witness :
  Binding.ShouldBindJSON
    (Some (JObject ([("retailer", JString "T")]
                    ++ ("store", JNumber "7") :: [("items", JArray [])])))
  = Binding.ShouldBindJSON
      (Some (JObject ([("retailer", JString "T")] ++ [("items", JArray [])]))).
Proof.
  apply unknown_key_ignored. intros []; reflexivity.
Defined.

(** X16 at the description "ab" with two spaces before and three after. *)
Lemma description_padding_witness :
  GoStrings.TrimSpace (String.append (spaces 2) (String.append "ab" (spaces 3)))
  = "ab".
Proof.
  exact (proj1 (description_padding int_indefinite 2 3 "ab" "a" "b" "1.00"
                  "a" "b" 0 eq_refl eq_refl eq_refl eq_refl)).
Defined.

(** X17 at the total 9. *)
Lemma whole_total_bonus_witness :
  quarter_rule (receipt_with "2022-01-02" "13:01" "9" [])
    (round_dollar_rule (receipt_with "2022-01-02" "13:01" "9" []) 0)
  = int_add (int_add 0 ROUND_DOLLAR_AMOUNT_BONUS) MULTIPLE_OF_0_POINT_25_BONUS.
Proof.
  refine (proj2 (whole_total_bonus (receipt_with "2022-01-02" "13:01" "9" []) 0
                   _ eq_refl _)).
  - discriminate.
  - vm_compute. lia.
Defined.
